(** * Mini Messenger: the socket session / room / broadcast layer

    A shallow embedding of the backend of the mini messenger application
    ([backend/src/index.js], [backend/src/routes/chat.js],
    [backend/src/middleware/auth.js], [backend/src/models/*.js]) and the
    properties of its session, room and message handling.

    JavaScript strings are modelled as [string] (one [ascii] per character),
    the MongoDB collections as finite sets, maps and lists, the sockets of the
    Socket.io server as a finite map from socket id to socket record, and
    every handler as a function from the world before the call to the world
    after it together with the ordered list of effects it performed. *)

From Stdlib Require Import ZArith Ascii String List.
From stdpp Require Import gmap strings list fin_maps sorting.

Local Open Scope string_scope.
Local Open Scope list_scope.

(** ** JavaScript strings *)

Module Js.

(** The characters removed by [String.prototype.trim] (and matched by the
    regular expression class [\s]) among the first 256 code points: TAB, LF,
    VT, FF, CR, SPACE and NBSP. *)
Definition is_ws (c : ascii) : bool :=
  let n := nat_of_ascii c in
  (Nat.leb 9 n && Nat.leb n 13) || Nat.eqb n 32 || Nat.eqb n 160.

Fixpoint trimStart (s : string) : string :=
  match s with
  | EmptyString => EmptyString
  | String c s' => if is_ws c then trimStart s' else s
  end.

Fixpoint trimEnd (s : string) : string :=
  match s with
  | EmptyString => EmptyString
  | String c s' =>
      match trimEnd s' with
      | EmptyString => if is_ws c then EmptyString else String c EmptyString
      | t => String c t
      end
  end.

(** [s.trim()] *)
Definition trim (s : string) : string := trimEnd (trimStart s).

(** [s.substring(n)] *)
Fixpoint substring_from (n : nat) (s : string) : string :=
  match n, s with
  | O, _ => s
  | S _, EmptyString => EmptyString
  | S n', String _ s' => substring_from n' s'
  end.

(** [s.startsWith(p)] *)
Definition startsWith (p s : string) : bool := String.prefix p s.

(** [c.repeat(n)] for a one character string. *)
Fixpoint repeat_char (c : ascii) (n : nat) : string :=
  match n with
  | O => EmptyString
  | S n' => String c (repeat_char c n')
  end.

(** The values an event argument or a request field can hold. A field that
    is itself an object or an array behaves in every test of the handlers as
    a value that is not a string; such fields are not represented apart. *)
Inductive Scalar : Type :=
  | Undefined
  | Null
  | Bool (b : bool)
  | Number (n : Z)
  | Str (s : string).

Inductive Value : Type :=
  | Prim (v : Scalar)
  | Object (fields : list (string * Scalar)).

(** Property read [v.k] inside a destructuring [const { k } = v]: it throws a
    [TypeError] ([None]) on [undefined] and [null], and yields [undefined] for
    a missing property. *)
Definition get (k : string) (v : Value) : option Scalar :=
  match v with
  | Prim Undefined | Prim Null => None
  | Prim _ => Some Undefined
  | Object fields =>
      match List.find (fun kv => String.eqb (fst kv) k) fields with
      | Some kv => Some (snd kv)
      | None => Some Undefined
      end
  end.

(** [!v || typeof v !== 'string' || v.trim().length === 0] is false exactly
    when [v] is a string with a character that is not white space; the string
    is returned in that case. *)
Definition nonblank_string (v : Scalar) : option string :=
  match v with
  | Str s => if Nat.eqb (String.length (trim s)) 0 then None else Some s
  | _ => None
  end.

(** The same test on an event argument, which may be an object. *)
Definition nonblank_string_arg (v : Value) : option string :=
  match v with
  | Prim p => nonblank_string p
  | Object _ => None
  end.

End Js.

(** A string that does not start with a white space character. *)
Definition no_leading_ws (s : string) : Prop :=
  match s with
  | EmptyString => True
  | String c _ => Js.is_ws c = false
  end.

(** ** Data model *)

(** Socket ids, user ids (the string form of a MongoDB [ObjectId]) and room
    names are strings. *)
Abbreviation SocketId := string.
Abbreviation UserId := string.

(** A document of the [User] collection, without its password and e-mail. *)
Record User : Type := mkUser { u_username : string }.

(** A document of the [Message] collection ([models/Message.js]); the same
    shape is used for the payload of the [message] event. *)
Record Message : Type := mkMessage {
  m_id : nat;
  m_room : string;
  m_username : string;
  m_text : string;
  m_ts : Z
}.

(** A connected socket: the identity stored on it by the authentication
    middleware and [socket.rooms], the set of Socket.io rooms it is in.
    Socket.io puts every socket in a room named after its own id. *)
Record Socket : Type := mkSocket {
  s_userId : UserId;
  s_username : string;
  s_rooms : gset string
}.

(** The state the handlers read and write: the three MongoDB collections and
    the sockets connected to the Socket.io server [io]. The [Room] collection
    is the set of the names of its documents (the name is unique). *)
Record World : Type := mkWorld {
  db_users : gmap string User;
  db_rooms : gset string;
  db_messages : list Message;
  io_sockets : gmap string Socket
}.

(** What one handler invocation finds outside the world: the state of the
    database connection, which of its queries fail, the clock and the
    [ObjectId] a new document receives. *)
Record Env : Type := mkEnv {
  readyState : nat;              (* mongoose.connection.readyState *)
  reconnectFails : bool;         (* connectDB(false) throws *)
  roomQueryFails : option bool;  (* Room.findOne throws; Some true: code 18 *)
  messageQueryFails : bool;      (* Message.find throws *)
  saveFails : bool;              (* the write of save() fails *)
  now : Z;                       (* new Date() *)
  newObjectId : nat
}.

(** The [message] strings of the [error] event. *)
Inductive ErrorMessage : Type :=
  | InvalidRoomName
  | DatabaseConnectionLost
  | DatabaseAuthenticationFailed
  | DatabaseError
  | RoomDoesNotExist (roomName : string)
  | FailedToJoinRoom
  | MessageTextRequired
  | MessageTooLong
  | MustJoinRoomFirst
  | FailedToSendMessage.

Definition dquote : string := String (ascii_of_nat 34) EmptyString.

Definition error_text (e : ErrorMessage) : string :=
  match e with
  | InvalidRoomName => "Invalid room name"
  | DatabaseConnectionLost =>
      "Database connection lost. Please refresh the page."
  | DatabaseAuthenticationFailed =>
      "Database authentication failed. Please check your MongoDB connection string."
  | DatabaseError => "Database error. Please try again later."
  | RoomDoesNotExist roomName =>
      "Room " +:+ dquote +:+ roomName +:+ dquote
      +:+ " does not exist. Please create the room first."
  | FailedToJoinRoom => "Failed to join room"
  | MessageTextRequired => "Message text is required"
  | MessageTooLong => "Message cannot exceed 1000 characters"
  | MustJoinRoomFirst => "You must join the room first"
  | FailedToSendMessage => "Failed to send message"
  end.

(** The error taxonomy of the specification, and the kind of each message. *)
Inductive ErrorKind : Type :=
  | AuthError
  | ValidationError
  | NotFoundError
  | StateError
  | StorageError.

Definition error_kind (e : ErrorMessage) : ErrorKind :=
  match e with
  | InvalidRoomName | MessageTextRequired | MessageTooLong => ValidationError
  | RoomDoesNotExist _ => NotFoundError
  | MustJoinRoomFirst => StateError
  | DatabaseConnectionLost | DatabaseAuthenticationFailed | DatabaseError
  | FailedToJoinRoom | FailedToSendMessage => StorageError
  end.

(** Server to client events. *)
Inductive ServerEvent : Type :=
  | EvError (e : ErrorMessage)
  | EvRoomHistory (room : string) (messages : list Message)
  | EvUserJoined (username room : string)
  | EvMessage (payload : Message).

(** The effects of a handler, in the order it performs them. [Emit R ev]
    delivers [ev] to the sockets of [R]: [socket.emit] has [R = {sid}]. *)
Inductive Effect : Type :=
  | RoomFindOne (name : string)
  | MessageFind (room : string) (limit skip : nat)
  | MessageSave (m : Message)
  | Emit (recipients : gset string) (ev : ServerEvent).

(** Socket [sid] receives event [ev] during the trace [tr]. *)
Definition receives (sid : SocketId) (ev : ServerEvent) (tr : list Effect) : Prop :=
  exists R, In (Emit R ev) tr /\ sid ∈ R.

(** ** The Mongoose models *)

Module RoomModel.

(** The character class of the [match] validator of [models/Room.js],
    [/^[a-zA-Z0-9_-]+$/]. *)
Definition name_char (c : ascii) : bool :=
  let n := nat_of_ascii c in
  (Nat.leb 97 n && Nat.leb n 122) || (Nat.leb 65 n && Nat.leb n 90)
  || (Nat.leb 48 n && Nat.leb n 57) || Nat.eqb n 95 || Nat.eqb n 45.

Fixpoint all_name_chars (s : string) : bool :=
  match s with
  | EmptyString => true
  | String c s' => name_char c && all_name_chars s'
  end.

(** The room name grammar: [minlength] 1, [maxlength] 50 and the [match]
    pattern, on the trimmed name. *)
Definition valid_name (name : string) : bool :=
  Nat.leb 1 (String.length name) && Nat.leb (String.length name) 50
  && all_name_chars name.

End RoomModel.

Module UserModel.

(** The character class of the [match] validator of the [User] schema,
    [/^[a-zA-Z0-9_]+$/]. *)
Definition name_char (c : ascii) : bool :=
  let n := nat_of_ascii c in
  (Nat.leb 97 n && Nat.leb n 122) || (Nat.leb 65 n && Nat.leb n 90)
  || (Nat.leb 48 n && Nat.leb n 57) || Nat.eqb n 95.

Fixpoint all_name_chars (s : string) : bool :=
  match s with
  | EmptyString => true
  | String c s' => name_char c && all_name_chars s'
  end.

(** The validators of [username]: [minlength] 3, [maxlength] 20 and the
    [match] pattern. Every user document is stored through them. *)
Definition valid_username (name : string) : bool :=
  Nat.leb 3 (String.length name) && Nat.leb (String.length name) 20
  && all_name_chars name.

End UserModel.

Module MessageModel.

(** [new Message({ room, username, text, ts })]: the schema trims the three
    strings ([trim: true]); the document receives its [_id] at once. *)
Definition new (id : nat) (room username text : string) (ts : Z) : Message :=
  {| m_id := id;
     m_room := Js.trim room;
     m_username := Js.trim username;
     m_text := Js.trim text;
     m_ts := ts |}.

(** The validators run by [save()]: the three strings are [required], the
    text has [maxlength] 1000. *)
Definition validate (m : Message) : bool :=
  negb (String.eqb (m_room m) "") && negb (String.eqb (m_username m) "")
  && negb (String.eqb (m_text m) "")
  && Nat.leb (String.length (m_text m)) 1000.

(** [sort({ ts: -1 })]: newest first; documents with the same timestamp keep
    the order in which they were stored. *)
Fixpoint insert_desc (m : Message) (l : list Message) : list Message :=
  match l with
  | [] => [m]
  | x :: l' =>
      if (m_ts x <=? m_ts m)%Z then m :: l else x :: insert_desc m l'
  end.

Definition sort_ts_desc (l : list Message) : list Message :=
  foldr insert_desc [] l.

(** [limit(n)]: a limit of 0 is no limit. *)
Definition limit {A} (n : nat) (l : list A) : list A :=
  match n with O => l | _ => take n l end.

(** [Message.find({ room }).sort({ ts: -1 }).limit(n).skip(k).lean()]:
    MongoDB sorts, then skips, then limits, in whichever order the cursor
    methods were chained. *)
Definition find_sorted (room : string) (n k : nat) (coll : list Message)
  : list Message :=
  limit n (drop k (sort_ts_desc (filter (fun m => m_room m = room) coll))).

End MessageModel.

Definition set_messages (ms : list Message) (w : World) : World :=
  {| db_users := db_users w; db_rooms := db_rooms w;
     db_messages := ms; io_sockets := io_sockets w |}.

Definition set_sockets (ss : gmap string Socket) (w : World) : World :=
  {| db_users := db_users w; db_rooms := db_rooms w;
     db_messages := db_messages w; io_sockets := ss |}.

Definition set_rooms (rs : gset string) (s : Socket) : Socket :=
  {| s_userId := s_userId s; s_username := s_username s; s_rooms := rs |}.

(** [await message.save()]: the document is validated, then appended to the
    collection; [None] when the promise rejects. *)
Definition save (env : Env) (m : Message) (w : World) : option World :=
  if MessageModel.validate m && negb (saveFails env)
  then Some (set_messages (db_messages w ++ [m]) w)
  else None.

(** The history read of both the socket and the REST path: the [n] newest
    messages of the room after the [k] newest, reversed to oldest first. *)
Definition recent (room : string) (n k : nat) (w : World) : list Message :=
  reverse (MessageModel.find_sorted room n k (db_messages w)).

(** The messages of a room, in the order they were stored. *)
Definition room_messages (room : string) (w : World) : list Message :=
  filter (fun m => m_room m = room) (db_messages w).

(** The last [n] elements of a list. *)
Definition last_n {A} (n : nat) (l : list A) : list A :=
  drop (length l - n) l.

(** The order of [sort({ ts: -1 })] and the chronological order. *)
Definition newer_first (a b : Message) : Prop := (m_ts b <= m_ts a)%Z.
Definition older_first (a b : Message) : Prop := (m_ts a <= m_ts b)%Z.

(** ** Socket.io rooms *)

(** The sockets currently in room [roomName]: the recipients of
    [io.to(roomName).emit]. *)
Definition io_to (roomName : string) (w : World) : gset string :=
  dom (filter (fun kv => roomName ∈ s_rooms kv.2) (io_sockets w)).

(** The recipients of [socket.to(roomName).emit]: Socket.io broadcasts to
    the room except the members of the room named by the id of the sending
    socket. The sender is among those as long as it is in its private room;
    so is any other socket that is in a room of that name. *)
Definition socket_to (sid : SocketId) (roomName : string) (w : World)
  : gset string :=
  io_to roomName w ∖ io_to sid w.

(** [socket.join(roomName)] *)
Definition socket_join (sid : SocketId) (roomName : string) (w : World) : World :=
  set_sockets
    (alter (fun s => set_rooms ({[roomName]} ∪ s_rooms s) s) sid (io_sockets w)) w.

(** [socket.leave(roomName)] *)
Definition socket_leave (sid : SocketId) (roomName : string) (w : World) : World :=
  set_sockets
    (alter (fun s => set_rooms (s_rooms s ∖ {[roomName]}) s) sid (io_sockets w)) w.

(** ** The socket event handlers ([index.js]) *)

Definition emit_error (sid : SocketId) (e : ErrorMessage) : Effect :=
  Emit {[sid]} (EvError e).

(** [socket.on('joinRoom', async (room) => ...)] on socket [sid]. A socket
    that is not connected has no handler: nothing happens. *)
Definition joinRoom (env : Env) (sid : SocketId) (room : Js.Value) (w : World)
  : World * list Effect :=
  match io_sockets w !! sid with
  | None => (w, [])
  | Some sock =>
    match Js.nonblank_string_arg room with
    | None => (w, [emit_error sid InvalidRoomName])
    | Some r =>
      let roomName := Js.trim r in
      if negb (Nat.eqb (readyState env) 1) && reconnectFails env
      then (w, [emit_error sid DatabaseConnectionLost])
      else
        match roomQueryFails env with
        | Some authFailed =>
            (w, [RoomFindOne roomName;
                 emit_error sid (if authFailed : bool
                                 then DatabaseAuthenticationFailed
                                 else DatabaseError)])
        | None =>
          if decide (roomName ∈ db_rooms w) then
            let w' := socket_join sid roomName w in
            if messageQueryFails env
            then (w', [RoomFindOne roomName; MessageFind roomName 50 0;
                       emit_error sid FailedToJoinRoom])
            else
              let messages := recent roomName 50 0 w' in
              (w', [RoomFindOne roomName; MessageFind roomName 50 0;
                    Emit {[sid]} (EvRoomHistory roomName messages);
                    Emit (socket_to sid roomName w')
                         (EvUserJoined (s_username sock) roomName)])
          else
            (w, [RoomFindOne roomName;
                 emit_error sid (RoomDoesNotExist roomName)])
        end
    end
  end.

(** [socket.on('chatMessage', async (data) => ...)] on socket [sid]. *)
Definition chatMessage (env : Env) (sid : SocketId) (data : Js.Value) (w : World)
  : World * list Effect :=
  match io_sockets w !! sid with
  | None => (w, [])
  | Some sock =>
    match Js.get "room" data, Js.get "text" data with
    | Some room, Some text =>
      match Js.nonblank_string room with
      | None => (w, [emit_error sid InvalidRoomName])
      | Some r =>
        match Js.nonblank_string text with
        | None => (w, [emit_error sid MessageTextRequired])
        | Some t =>
          if Nat.ltb 1000 (String.length t)
          then (w, [emit_error sid MessageTooLong])
          else
            let roomName := Js.trim r in
            let messageText := Js.trim t in
            if decide (roomName ∈ s_rooms sock) then
              let message :=
                MessageModel.new (newObjectId env) roomName (s_username sock)
                                 messageText (now env) in
              match save env message w with
              | Some w' =>
                  (w', [MessageSave message;
                        Emit (io_to roomName w')
                             (EvMessage {| m_id := m_id message;
                                           m_room := roomName;
                                           m_username := s_username sock;
                                           m_text := messageText;
                                           m_ts := m_ts message |})])
              | None => (w, [emit_error sid FailedToSendMessage])
              end
            else (w, [emit_error sid MustJoinRoomFirst])
        end
      end
    | _, _ => (w, [emit_error sid FailedToSendMessage])
    end
  end.

(** [socket.on('leaveRoom', (room) => ...)]: [room && typeof room ===
    'string'] holds for every string but the empty one. *)
Definition leaveRoom (sid : SocketId) (room : Js.Value) (w : World)
  : World * list Effect :=
  match io_sockets w !! sid, room with
  | Some _, Js.Prim (Js.Str r) =>
      if String.eqb r "" then (w, []) else (socket_leave sid (Js.trim r) w, [])
  | _, _ => (w, [])
  end.

(** The disconnection of socket [sid]: Socket.io removes it from all its
    rooms and from the server. *)
Definition disconnect (sid : SocketId) (w : World) : World * list Effect :=
  (set_sockets (delete sid (io_sockets w)) w, []).

(** ** Authentication ([index.js], [middleware/auth.js]) *)

(** What the [jsonwebtoken] library reads from a token in compact form: the
    key its signature was made with, the [nbf] and [exp] claims (seconds) and
    the [userId] and [username] claims. *)
Record Jwt : Type := mkJwt {
  jwt_key : string;
  jwt_nbf : option Z;
  jwt_exp : option Z;
  jwt_userId : option UserId;
  jwt_username : option string
}.

(** The errors [jwt.verify] throws, by [error.name]. *)
Inductive VerifyError : Type :=
  | JsonWebTokenError
  | NotBeforeError
  | TokenExpiredError.

(** The environment of an authentication: the secret, the clock (seconds) and
    whether [User.findById] throws in it, because the store cannot be reached
    or because the [userId] claim cannot be cast to an [ObjectId]. *)
Record AuthEnv : Type := mkAuthEnv {
  JWT_SECRET : string;
  clock : Z;
  userQueryFails : bool
}.

(** The credential sources of a socket handshake: [handshake.auth.token] and
    the [authorization] header. *)
Record Handshake : Type := mkHandshake {
  auth_token : option string;
  authorization : option string
}.

(** The reasons the socket middleware refuses a connection; each is the text
    after ["Authentication error: "] of the error given to [next]. *)
Inductive AuthFailure : Type :=
  | NoTokenProvided
  | UserNotFound
  | InvalidToken
  | TokenExpired
  | OtherFailure (message : string).

(** The payload [jwt.sign] receives in the register and login routes. *)
Definition issued_claims (uid : UserId) (u : User) : option UserId * option string :=
  (Some uid, Some (u_username u)).

(** Responses of the REST routes. *)
Inductive Response : Type :=
  | BadRequest (errors : list string)      (* 400, "Validation failed" *)
  | Unauthorized (message : string)        (* 401 *)
  | Created (data : Message)               (* 201 *)
  | Ok (room : string) (count : nat) (messages : list Message)  (* 200 *)
  | NextError.                             (* next(error): the error handler *)

(** The body of [POST /api/chat/messages] and the query of
    [GET /api/chat/messages]; an absent field is read as the empty string by
    the validators. A [limit] or [skip] that is not an integer literal fails
    the validator of its field like one that is out of range. *)
Record PostRequest : Type := mkPostRequest {
  post_authorization : option string;
  body_room : option string;
  body_text : option string
}.

Record GetRequest : Type := mkGetRequest {
  get_authorization : option string;
  query_room : option string;
  query_limit : option Z;
  query_skip : option Z
}.

Section Auth.

(** The decoding of a compact token by the [jsonwebtoken] library; [None] for
    a string that is not a token. *)
Variable jwt_decode : string -> option Jwt.

(** [jwt.verify(token, secret)] at time [t]. *)
Definition jwt_verify (secret : string) (t : Z) (token : string)
  : VerifyError + Jwt :=
  match jwt_decode token with
  | None => inl JsonWebTokenError
  | Some j =>
      if negb (String.eqb (jwt_key j) secret) then inl JsonWebTokenError
      else if match jwt_nbf j with Some n => (t <? n)%Z | None => false end
      then inl NotBeforeError
      else if match jwt_exp j with Some e => (e <=? t)%Z | None => false end
      then inl TokenExpiredError
      else inr j
  end.

(** [socket.handshake.auth.token ||
     socket.handshake.headers.authorization?.substring(7)] *)
Definition handshake_token (hs : Handshake) : option string :=
  match auth_token hs with
  | Some (String c t) => Some (String c t)
  | _ => option_map (Js.substring_from 7) (authorization hs)
  end.

(** [User.findById(id)]; an absent claim finds nothing. *)
Definition findById (id : option UserId) (w : World) : option (UserId * User) :=
  match id with
  | Some uid =>
      match db_users w !! uid with
      | Some u => Some (uid, u)
      | None => None
      end
  | None => None
  end.

(** The middleware [io.use(async (socket, next) => ...)]: on success the
    identity it stores on the socket. *)
Definition socket_auth (aenv : AuthEnv) (hs : Handshake) (w : World)
  : AuthFailure + (UserId * string) :=
  match handshake_token hs with
  | None | Some EmptyString => inl NoTokenProvided
  | Some token =>
      match jwt_verify (JWT_SECRET aenv) (clock aenv) token with
      | inl JsonWebTokenError => inl InvalidToken
      | inl TokenExpiredError => inl TokenExpired
      | inl NotBeforeError => inl (OtherFailure "jwt not active")
      | inr decoded =>
          if userQueryFails aenv then inl (OtherFailure "query failed")
          else
            match findById (jwt_userId decoded) w with
            | None => inl UserNotFound
            | Some (uid, user) => inr (uid, u_username user)
            end
      end
  end.

(** A connection attempt of a socket with id [sid]: when the middleware calls
    [next()] the socket is connected, in the room of its own id; when it calls
    [next(error)] the connection is refused and nothing is kept. *)
Definition connect (aenv : AuthEnv) (sid : SocketId) (hs : Handshake) (w : World)
  : World * option AuthFailure :=
  match socket_auth aenv hs w with
  | inl err => (w, Some err)
  | inr (uid, name) =>
      (set_sockets
         (<[sid := {| s_userId := uid; s_username := name;
                      s_rooms := {[sid]} |}]> (io_sockets w)) w,
       None)
  end.

(** [authMiddleware] of the REST routes: the user attached to [req.user], or
    the response that ends the request. *)
Definition authMiddleware (aenv : AuthEnv) (header : option string) (w : World)
  : Response + User :=
  match header with
  | None =>
      inl (Unauthorized
             "No token provided. Authorization header must be in format: Bearer <token>")
  | Some h =>
      if negb (Js.startsWith "Bearer " h)
      then inl (Unauthorized
                  "No token provided. Authorization header must be in format: Bearer <token>")
      else
        match Js.substring_from 7 h with
        | EmptyString => inl (Unauthorized "No token provided")
        | token =>
            match jwt_verify (JWT_SECRET aenv) (clock aenv) token with
            | inl JsonWebTokenError => inl (Unauthorized "Invalid token")
            | inl TokenExpiredError => inl (Unauthorized "Token expired")
            | inl NotBeforeError => inl NextError
            | inr decoded =>
                if userQueryFails aenv then inl NextError
                else
                  match findById (jwt_userId decoded) w with
                  | None => inl (Unauthorized "User not found")
                  | Some (_, user) => inr user
                  end
            end
        end
  end.

(** The token [j] is signed with [secret], active and not expired at time
    [t]. *)
Definition current (secret : string) (t : Z) (j : Jwt) : Prop :=
  jwt_key j = secret
  /\ (forall n, jwt_nbf j = Some n -> (n <= t)%Z)
  /\ (forall e, jwt_exp j = Some e -> (t < e)%Z).

(** The handshake carries a well-formed, unexpired credential whose [userId]
    claim is the id of the stored user [user]: a string that is not empty and
    decodes to a token [decoded], signed with the secret of the server, active
    and not expired at the time of the connection. *)
Definition credential_resolves (aenv : AuthEnv) (hs : Handshake) (w : World)
    (decoded : Jwt) (uid : UserId) (user : User) : Prop :=
  exists c token,
    handshake_token hs = Some (String c token)
    /\ jwt_decode (String c token) = Some decoded
    /\ current (JWT_SECRET aenv) (clock aenv) decoded
    /\ jwt_userId decoded = Some uid
    /\ db_users w !! uid = Some user.

(** ** The REST routes ([routes/chat.js]) *)

(** The validation chains of [POST /api/chat/messages]: each field is
    trimmed in place, then checked. *)
Definition post_validation (req : PostRequest) : list string :=
  let room := Js.trim (default "" (body_room req)) in
  let text := Js.trim (default "" (body_text req)) in
  (if String.eqb room "" then ["Room is required"] else [])
  ++ (if String.eqb text "" then ["Message text is required"] else [])
  ++ (if Nat.ltb 1000 (String.length text)
      then ["Message cannot exceed 1000 characters"] else []).

(** [router.post('/messages', ...)] *)
Definition post_message (aenv : AuthEnv) (env : Env) (req : PostRequest) (w : World)
  : World * Response :=
  match post_validation req with
  | (_ :: _) as errors => (w, BadRequest errors)
  | [] =>
      match authMiddleware aenv (post_authorization req) w with
      | inl response => (w, response)
      | inr user =>
          let room := Js.trim (default "" (body_room req)) in
          let text := Js.trim (default "" (body_text req)) in
          let message :=
            MessageModel.new (newObjectId env) (Js.trim room) (u_username user)
                             (Js.trim text) (now env) in
          match save env message w with
          | Some w' => (w', Created message)
          | None => (w, NextError)
          end
      end
  end.

(** [Number.parseInt(req.query.limit, 10) || 50] and
    [Number.parseInt(req.query.skip, 10) || 0] *)
Definition effective_limit (l : option Z) : nat :=
  match l with
  | Some z => if (z =? 0)%Z then 50 else Z.to_nat z
  | None => 50
  end.

Definition effective_skip (k : option Z) : nat :=
  match k with
  | Some z => Z.to_nat z
  | None => 0
  end.

Definition get_validation (req : GetRequest) : list string :=
  (if String.eqb (Js.trim (default "" (query_room req))) ""
   then ["Room parameter is required"] else [])
  ++ (match query_limit req with
      | Some l => if ((1 <=? l) && (l <=? 100))%Z then []
                  else ["Limit must be between 1 and 100"]
      | None => []
      end)
  ++ (match query_skip req with
      | Some k => if (0 <=? k)%Z then []
                  else ["Skip must be a non-negative integer"]
      | None => []
      end).

(** [router.get('/messages', ...)] *)
Definition get_messages (aenv : AuthEnv) (env : Env) (req : GetRequest) (w : World)
  : Response :=
  match get_validation req with
  | (_ :: _) as errors => BadRequest errors
  | [] =>
      match authMiddleware aenv (get_authorization req) w with
      | inl response => response
      | inr _ =>
          if messageQueryFails env then NextError
          else
            let room := Js.trim (Js.trim (default "" (query_room req))) in
            let messages :=
              recent room (effective_limit (query_limit req))
                     (effective_skip (query_skip req)) w in
            Ok room (length messages) messages
      end
  end.

End Auth.

(** ** Membership and outcomes *)

(** Socket [sid] is in the Socket.io room [r]: what [socket.rooms.has(r)]
    tests. *)
Definition subscribed (sid : SocketId) (r : string) (w : World) : Prop :=
  exists sock, io_sockets w !! sid = Some sock /\ r ∈ s_rooms sock.

(** Socket [sid] has joined the chat room [r]: it is in that room, which is
    not the private room of its own id. *)
Definition joined (sid : SocketId) (r : string) (w : World) : Prop :=
  subscribed sid r w /\ r <> sid.

(** A join of room [r] by socket [sid] succeeded during [tr]: the socket was
    sent the history of the room. *)
Definition join_succeeded (sid : SocketId) (r : string) (tr : list Effect) : Prop :=
  exists messages, In (Emit {[sid]} (EvRoomHistory r messages)) tr.


(** ** Concrete worlds used to exercise the model *)

Module Sample.

Definition env : Env :=
  {| readyState := 1; reconnectFails := false; roomQueryFails := None;
     messageQueryFails := false; saveFails := false;
     now := 1700000000500; newObjectId := 7 |}.

Definition hello : Message :=
  {| m_id := 1; m_room := "general"; m_username := "alice";
     m_text := "hello"; m_ts := 1700000000100 |}.

Definition hi : Message :=
  {| m_id := 2; m_room := "general"; m_username := "bob";
     m_text := "hi"; m_ts := 1700000000200 |}.

Definition lunch : Message :=
  {| m_id := 3; m_room := "random"; m_username := "bob";
     m_text := "lunch?"; m_ts := 1700000000300 |}.

(** alice (socket [s1]) is connected and has joined no room; bob (socket
    [s2]) has joined [general]. There is no room [ghost-room]. *)
Definition alice : Socket :=
  {| s_userId := "u1"; s_username := "alice"; s_rooms := {[ "s1" ]} |}.

Definition bob : Socket :=
  {| s_userId := "u2"; s_username := "bob";
     s_rooms := {[ "s2"; "general" ]} |}.

Definition world : World :=
  {| db_users := {[ "u1" := mkUser "alice"; "u2" := mkUser "bob" ]};
     db_rooms := {[ "general"; "random" ]};
     db_messages := [hello; lunch; hi];
     io_sockets := {[ "s1" := alice; "s2" := bob ]} |}.

Definition aenv : AuthEnv :=
  {| JWT_SECRET := "secret"; clock := 1700000000; userQueryFails := false |}.

Definition token (key : string) (exp : Z) (uid name : string) : Jwt :=
  {| jwt_key := key; jwt_nbf := None; jwt_exp := Some exp;
     jwt_userId := Some uid; jwt_username := Some name |}.

(** Five tokens: one of alice, one of alice that names her by another name,
    an expired one, one signed with another key and one of a user that is no
    longer stored. *)
Definition jwt_decode (s : string) : option Jwt :=
  if String.eqb s "token-alice"
  then Some (token "secret" 1700086400 "u1" "alice")
  else if String.eqb s "token-renamed"
  then Some (token "secret" 1700086400 "u1" "alicia")
  else if String.eqb s "token-expired"
  then Some (token "secret" 1600000000 "u1" "alice")
  else if String.eqb s "token-forged"
  then Some (token "other" 1700086400 "u1" "alice")
  else if String.eqb s "token-deleted"
  then Some (token "secret" 1700086400 "u9" "carol")
  else None.

(** A text of 1001 characters whose trimmed form has one. *)
Definition padded_text : string := String "a" (Js.repeat_char " " 1000).

Definition str (s : string) : Js.Value := Js.Prim (Js.Str s).

Definition payload (room text : string) : Js.Value :=
  Js.Object [("room", Js.Str room); ("text", Js.Str text)].

End Sample.

(** ** The other routes ([routes/chat.js], [routes/rooms.js]) *)

Definition set_db_rooms (rs : gset string) (w : World) : World :=
  {| db_users := db_users w; db_rooms := rs;
     db_messages := db_messages w; io_sockets := io_sockets w |}.

(** The body of [POST /rooms]. *)
Record RoomRequest : Type := mkRoomRequest {
  room_authorization : option string;
  body_name : option string
}.

(** Responses of [POST /rooms]: the refusals shared with the other routes,
    409 and 201 with the name and creation date of the room. *)
Inductive RoomsResponse : Type :=
  | RoomsRefused (response : Response)
  | RoomNameExists
  | RoomCreated (name : string) (createdAt : Z).

(** One row of [GET /api/chat/rooms]. *)
Record RoomSummary : Type := mkRoomSummary {
  rs_name : string;
  rs_messageCount : nat;
  rs_lastMessage : Z
}.

Inductive ChatRoomsResponse : Type :=
  | ChatRoomsRefused (response : Response)
  | ChatRooms (count : nat) (rooms : list RoomSummary).

Module Aggregate.

(** The [$group] stage: one group per value of [room], counting the
    documents ([$sum: 1]) and keeping the newest timestamp ([$max: '$ts']). *)
Fixpoint group_add (m : Message) (groups : list RoomSummary) : list RoomSummary :=
  match groups with
  | [] => [{| rs_name := m_room m; rs_messageCount := 1;
              rs_lastMessage := m_ts m |}]
  | g :: rest =>
      if String.eqb (rs_name g) (m_room m)
      then {| rs_name := rs_name g;
              rs_messageCount := S (rs_messageCount g);
              rs_lastMessage := Z.max (rs_lastMessage g) (m_ts m) |} :: rest
      else g :: group_add m rest
  end.

Definition group_by_room (coll : list Message) : list RoomSummary :=
  foldr group_add [] coll.

(** The [$sort: { lastMessage: -1 }] stage. *)
Fixpoint insert_desc (s : RoomSummary) (l : list RoomSummary) : list RoomSummary :=
  match l with
  | [] => [s]
  | x :: l' =>
      if (rs_lastMessage x <=? rs_lastMessage s)%Z
      then s :: l else x :: insert_desc s l'
  end.

Definition sort_last_desc (l : list RoomSummary) : list RoomSummary :=
  foldr insert_desc [] l.

(** [Message.aggregate([{ $group }, { $project }, { $sort }])] *)
Definition rooms (coll : list Message) : list RoomSummary :=
  sort_last_desc (group_by_room coll).

End Aggregate.

(** The row [g] is the summary of the messages of its room in [coll]: their
    number, which is not zero, and the newest of their timestamps. *)
Definition summarises (coll : list Message) (g : RoomSummary) : Prop :=
  rs_messageCount g = length (filter (fun m => m_room m = rs_name g) coll)
  /\ 0 < rs_messageCount g
  /\ (exists m, In m coll /\ m_room m = rs_name g /\ m_ts m = rs_lastMessage g)
  /\ (forall m, In m coll -> m_room m = rs_name g ->
                 (m_ts m <= rs_lastMessage g)%Z).

(** The order of [$sort: { lastMessage: -1 }]. *)
Definition latest_first (a b : RoomSummary) : Prop :=
  (rs_lastMessage b <= rs_lastMessage a)%Z.

Section Routes.

Variable jwt_decode : string -> option Jwt.

(** The validation chain of [POST /rooms]: the name is trimmed in place,
    then every validator of the chain runs. *)
Definition rooms_validation (req : RoomRequest) : list string :=
  let name := Js.trim (default "" (body_name req)) in
  (if String.eqb name "" then ["Room name is required"] else [])
  ++ (if Nat.leb 1 (String.length name) && Nat.leb (String.length name) 50
      then [] else ["Room name must be between 1 and 50 characters"])
  ++ (if negb (String.eqb name "") && RoomModel.all_name_chars name
      then []
      else ["Room name can only contain letters, numbers, hyphens, and underscores"]).

(** [router.post('/', ...)] of [routes/rooms.js]. The new document has the
    name trimmed by the schema and is validated by it before it is
    written. *)
Definition create_room (aenv : AuthEnv) (env : Env) (req : RoomRequest) (w : World)
  : World * RoomsResponse :=
  match rooms_validation req with
  | (_ :: _) as errors => (w, RoomsRefused (BadRequest errors))
  | [] =>
      match authMiddleware jwt_decode aenv (room_authorization req) w with
      | inl response => (w, RoomsRefused response)
      | inr _ =>
          let roomName := Js.trim (Js.trim (default "" (body_name req))) in
          match roomQueryFails env with
          | Some _ => (w, RoomsRefused NextError)
          | None =>
              if decide (roomName ∈ db_rooms w) then (w, RoomNameExists)
              else
                let name := Js.trim roomName in
                if RoomModel.valid_name name && negb (saveFails env)
                then (set_db_rooms ({[name]} ∪ db_rooms w) w,
                      RoomCreated name (now env))
                else (w, RoomsRefused NextError)
          end
      end
  end.

(** The validation chain of [GET /api/chat/messages/:roomId]: the [limit]
    and [skip] checks of the query route, with no check of the room. *)
Definition page_validation (limit skip : option Z) : list string :=
  (match limit with
   | Some l => if ((1 <=? l) && (l <=? 100))%Z then []
               else ["Limit must be between 1 and 100"]
   | None => []
   end)
  ++ (match skip with
      | Some k => if (0 <=? k)%Z then []
                  else ["Skip must be a non-negative integer"]
      | None => []
      end).

(** [router.get('/messages/:roomId', ...)] *)
Definition get_room_messages (aenv : AuthEnv) (env : Env)
    (header : option string) (roomId : string) (limit skip : option Z) (w : World)
  : Response :=
  match page_validation limit skip with
  | (_ :: _) as errors => BadRequest errors
  | [] =>
      match authMiddleware jwt_decode aenv header w with
      | inl response => response
      | inr _ =>
          if messageQueryFails env then NextError
          else
            let messages :=
              recent (Js.trim roomId) (effective_limit limit)
                     (effective_skip skip) w in
            Ok (Js.trim roomId) (length messages) messages
      end
  end.

(** [router.get('/rooms', ...)] of [routes/chat.js]: the rooms that have
    messages, with their message count and newest timestamp. *)
Definition chat_rooms (aenv : AuthEnv) (env : Env) (header : option string) (w : World)
  : ChatRoomsResponse :=
  match authMiddleware jwt_decode aenv header w with
  | inl response => ChatRoomsRefused response
  | inr _ =>
      if messageQueryFails env then ChatRoomsRefused NextError
      else
        let rooms := Aggregate.rooms (db_messages w) in
        ChatRooms (length rooms) rooms
  end.

(** ** The server as a whole *)

(** The requests to the socket handlers, the message routes and the room
    route, which the server handles one at a time. The routes that register
    and log in users are not among them. *)
Inductive Request : Type :=
  | Connect (aenv : AuthEnv) (sid : SocketId) (hs : Handshake)
  | JoinRoom (env : Env) (sid : SocketId) (room : Js.Value)
  | ChatMessage (env : Env) (sid : SocketId) (data : Js.Value)
  | LeaveRoom (sid : SocketId) (room : Js.Value)
  | Disconnect (sid : SocketId)
  | PostMessage (aenv : AuthEnv) (env : Env) (req : PostRequest)
  | PostRoom (aenv : AuthEnv) (env : Env) (req : RoomRequest).

Definition handle (r : Request) (w : World) : World :=
  match r with
  | Connect aenv sid hs => (connect jwt_decode aenv sid hs w).1
  | JoinRoom env sid room => (joinRoom env sid room w).1
  | ChatMessage env sid data => (chatMessage env sid data w).1
  | LeaveRoom sid room => (leaveRoom sid room w).1
  | Disconnect sid => (disconnect sid w).1
  | PostMessage aenv env req => (post_message jwt_decode aenv env req w).1
  | PostRoom aenv env req => (create_room aenv env req w).1
  end.

Definition run (rs : list Request) (w : World) : World :=
  foldl (fun w r => handle r w) w rs.

End Routes.

(** A world the handlers can have produced: every stored message passed the
    validators of its schema, every room name is in the grammar, every room
    of a socket is its private room or a stored room, and the identity of
    every socket is that of a stored user. *)
Record consistent (w : World) : Prop := mkConsistent {
  messages_valid :
    forall m, In m (db_messages w) -> MessageModel.validate m = true;
  rooms_valid :
    forall r, r ∈ db_rooms w -> RoomModel.valid_name r = true;
  subscriptions_exist :
    forall sid sock r,
      io_sockets w !! sid = Some sock -> r ∈ s_rooms sock ->
      r = sid \/ r ∈ db_rooms w;
  sessions_resolve :
    forall sid sock,
      io_sockets w !! sid = Some sock ->
      db_users w !! s_userId sock = Some (mkUser (s_username sock))
}.

(** ** The client ([components/MessageInput.jsx], [components/MessageList.jsx],
    [pages/Chat.jsx]) *)

Module Client.

(** The state of the chat page the handlers read: whether the socket has
    been created, whether it is connected, and the room shown. *)
Record ChatState : Type := mkChatState {
  has_socket : bool;
  connected : bool;
  currentRoom : string
}.

(** The events the page emits to the server. *)
Inductive Emitted : Type :=
  | EmitJoinRoom (room : string)
  | EmitLeaveRoom (room : string)
  | EmitChatMessage (room text : string).

(** [handleSubmit] of [MessageInput]: the text given to [onSendMessage], if
    any, for the content [message] of the input. *)
Definition handleSubmit (message : string) (disabled : bool) : option string :=
  let trimmedMessage := Js.trim message in
  if negb (String.eqb trimmedMessage "") && negb disabled
  then Some trimmedMessage else None.

(** [handleSendMessage] of the chat page. *)
Definition handleSendMessage (st : ChatState) (text : string) : list Emitted :=
  if has_socket st && connected st && negb (String.eqb (currentRoom st) "")
  then [EmitChatMessage (currentRoom st) text] else [].

(** The submission of the input of the chat page, whose [MessageInput] is
    disabled while the socket is not connected. *)
Definition submit (st : ChatState) (message : string) : list Emitted :=
  match handleSubmit message (negb (connected st)) with
  | Some text => handleSendMessage st text
  | None => []
  end.

(** The effect that runs when the room shown changes: [st] is the state after
    the change. *)
Definition roomChangeEffect (st : ChatState) : list Emitted :=
  if has_socket st && connected st && negb (String.eqb (currentRoom st) "")
  then [EmitLeaveRoom (currentRoom st); EmitJoinRoom (currentRoom st)]
  else [].

(** The server request an emitted event becomes on socket [sid]. *)
Definition request (env : Env) (sid : SocketId) (e : Emitted) : Request :=
  match e with
  | EmitJoinRoom room => JoinRoom env sid (Js.Prim (Js.Str room))
  | EmitLeaveRoom room => LeaveRoom sid (Js.Prim (Js.Str room))
  | EmitChatMessage room text =>
      ChatMessage env sid
        (Js.Object [("room", Js.Str room); ("text", Js.Str text)])
  end.

(** What [formatTime] of [MessageList] shows. *)
Inductive TimeLabel : Type :=
  | JustNow
  | MinutesAgo (minutes : Z)
  | HoursAgo (hours : Z)
  | DateAndTime (timestamp : Z).

(** [formatTime(timestamp)] at time [now], both in milliseconds. *)
Definition formatTime (now timestamp : Z) : TimeLabel :=
  let diff := (now - timestamp)%Z in
  let minutes := (diff / 60000)%Z in
  if (minutes <? 1)%Z then JustNow
  else if (minutes <? 60)%Z then MinutesAgo minutes
  else if (minutes <? 1440)%Z then HoursAgo (minutes / 60)
  else DateAndTime timestamp.

End Client.

(** * Properties *)

(** ** Facts about [trim] *)

Lemma trimStart_length s : String.length (Js.trimStart s) <= String.length s.
Proof.
  induction s as [|c s IH]; simpl; [lia|].
  destruct (Js.is_ws c); simpl; lia.
Qed.

Lemma trimEnd_length s : String.length (Js.trimEnd s) <= String.length s.
Proof.
  induction s as [|c s IH]; simpl; [lia|].
  destruct (Js.trimEnd s) as [|d t]; simpl in *.
  - destruct (Js.is_ws c); simpl; lia.
  - lia.
Qed.

Lemma trim_length s : String.length (Js.trim s) <= String.length s.
Proof.
  unfold Js.trim.
  etransitivity; [apply trimEnd_length | apply trimStart_length].
Qed.

Lemma trimEnd_idemp s : Js.trimEnd (Js.trimEnd s) = Js.trimEnd s.
Proof.
  induction s as [|c s IH]; simpl; [done|].
  destruct (Js.trimEnd s) as [|d t] eqn:E.
  - destruct (Js.is_ws c) eqn:Ec; simpl; [done|]. by rewrite Ec.
  - change (Js.trimEnd (String c (String d t)))
      with (match Js.trimEnd (String d t) with
            | EmptyString =>
                if Js.is_ws c then EmptyString else String c EmptyString
            | t' => String c t'
            end).
    by rewrite IH.
Qed.

Lemma trimStart_no_leading_ws s : no_leading_ws (Js.trimStart s).
Proof.
  induction s as [|c s IH]; simpl; [done|].
  destruct (Js.is_ws c) eqn:Ec; simpl; done.
Qed.

Lemma trimStart_fixed s : no_leading_ws s -> Js.trimStart s = s.
Proof. destruct s as [|c s]; simpl; [done|]. by intros ->. Qed.

Lemma trimEnd_no_leading_ws s : no_leading_ws s -> no_leading_ws (Js.trimEnd s).
Proof.
  destruct s as [|c s]; simpl; [done|]. intros Hc.
  destruct (Js.trimEnd s); simpl; [by rewrite Hc|done].
Qed.

Lemma trim_idemp s : Js.trim (Js.trim s) = Js.trim s.
Proof.
  unfold Js.trim.
  rewrite (trimStart_fixed (Js.trimEnd (Js.trimStart s))).
  - apply trimEnd_idemp.
  - apply trimEnd_no_leading_ws, trimStart_no_leading_ws.
Qed.

(** ** Socket.io rooms *)

Lemma socket_join_lookup sid r w :
  io_sockets (socket_join sid r w) !! sid
  = (fun s => set_rooms ({[r]} ∪ s_rooms s) s) <$> io_sockets w !! sid.
Proof. unfold socket_join; simpl. apply lookup_alter_eq. Qed.

Lemma socket_join_lookup_ne sid sid' r w :
  sid <> sid' ->
  io_sockets (socket_join sid r w) !! sid' = io_sockets w !! sid'.
Proof. intros. unfold socket_join; simpl. by apply lookup_alter_ne. Qed.

Lemma elem_of_io_to sid r w : sid ∈ io_to r w <-> subscribed sid r w.
Proof.
  unfold io_to, subscribed. rewrite elem_of_dom. split.
  - intros [sock Hs]. apply map_lookup_filter_Some in Hs as [Hs Hr]. eauto.
  - intros (sock & Hs & Hr). exists sock. by apply map_lookup_filter_Some.
Qed.

Lemma elem_of_socket_to sid' sid r w :
  sid' ∈ socket_to sid r w <-> subscribed sid' r w /\ ~ subscribed sid' sid w.
Proof.
  unfold socket_to. by rewrite elem_of_difference, !elem_of_io_to.
Qed.

(** *** [joinRoom] *)

(** Closes a goal in which [H] states that an effect occurs in a trace that
    does not hold it. *)
Ltac absurd_trace H :=
  simplify_eq; simpl in H; unfold emit_error in H; intuition discriminate.


(** A join that succeeded went through every check of the handler. *)
Lemma joinRoom_success_inv env sid room w w' tr r sock :
  io_sockets w !! sid = Some sock ->
  joinRoom env sid room w = (w', tr) ->
  join_succeeded sid r tr ->
  exists name,
    Js.nonblank_string_arg room = Some name /\ r = Js.trim name
    /\ r ∈ db_rooms w
    /\ w' = socket_join sid r w
    /\ tr = [RoomFindOne r; MessageFind r 50 0;
             Emit {[sid]} (EvRoomHistory r (recent r 50 0 w'));
             Emit (socket_to sid r w') (EvUserJoined (s_username sock) r)].
Proof.
  intros Hsock Hjoin [messages Hin].
  unfold joinRoom, emit_error in Hjoin. rewrite Hsock in Hjoin.
  destruct (Js.nonblank_string_arg room) as [name|];
    [|absurd_trace Hin].
  destruct (negb (Nat.eqb (readyState env) 1) && reconnectFails env);
    [absurd_trace Hin|].
  destruct (roomQueryFails env) as [authFailed|]; [absurd_trace Hin|].
  destruct (decide (Js.trim name ∈ db_rooms w)) as [Hroom|];
    [|absurd_trace Hin].
  destruct (messageQueryFails env); [absurd_trace Hin|].
  simplify_eq.
  assert (r = Js.trim name) as ->.
  { simpl in Hin. intuition congruence. }
  eauto 10.
Qed.

(** C1, as stated, fails: bob has joined [general]; his join of [random]
    succeeds, and afterwards he has joined both rooms. *)
Lemma joinRoom_prior_membership_kept :
  let result := joinRoom Sample.env "s2" (Sample.str "random") Sample.world in
  joined "s2" "general" Sample.world
  /\ join_succeeded "s2" "random" result.2
  /\ joined "s2" "general" result.1
  /\ joined "s2" "random" result.1.
Proof.
  repeat split; try discriminate.
  - eexists; split; vm_compute; reflexivity.
  - eexists. vm_compute. right; right; left. reflexivity.
  - eexists; split; vm_compute; reflexivity.
  - eexists; split; vm_compute; reflexivity.
Qed.

(** C1, amended: a successful join adds the joined room to the rooms of the
    socket and releases nothing: every room the socket was in before, it is
    still in, and no other socket changes. *)
Theorem joinRoom_adds_membership env sid room w w' tr r sock :
  io_sockets w !! sid = Some sock ->
  joinRoom env sid room w = (w', tr) ->
  join_succeeded sid r tr ->
  (exists sock', io_sockets w' !! sid = Some sock'
                 /\ s_rooms sock' = {[r]} ∪ s_rooms sock)
  /\ (forall r', subscribed sid r' w -> subscribed sid r' w')
  /\ (forall sid', sid' <> sid -> io_sockets w' !! sid' = io_sockets w !! sid').
Proof.
  intros Hsock Hjoin Hok.
  destruct (joinRoom_success_inv _ _ _ _ _ _ _ _ Hsock Hjoin Hok)
    as (name & _ & -> & _ & -> & _).
  assert (io_sockets (socket_join sid (Js.trim name) w) !! sid
          = Some (set_rooms ({[Js.trim name]} ∪ s_rooms sock) sock)) as Hnew.
  { rewrite socket_join_lookup. by rewrite Hsock. }
  split; [eauto|]. split.
  - intros r' (sock0 & Hs0 & Hr'). simplify_eq.
    eexists; split; [exact Hnew|]. simpl. set_solver.
  - intros sid' Hne. by apply socket_join_lookup_ne.
Qed.

Lemma joinRoom_adds_membership_witness :
  let result := joinRoom Sample.env "s2" (Sample.str "random") Sample.world in
  (exists sock', io_sockets result.1 !! "s2" = Some sock'
                 /\ s_rooms sock' = {["random"]} ∪ s_rooms Sample.bob)
  /\ (forall r', subscribed "s2" r' Sample.world -> subscribed "s2" r' result.1)
  /\ (forall sid', sid' <> "s2" ->
                   io_sockets result.1 !! sid' = io_sockets Sample.world !! sid').
Proof.
  intros result.
  apply (joinRoom_adds_membership Sample.env "s2" (Sample.str "random")
           Sample.world result.1 result.2 "random" Sample.bob).
  - vm_compute; reflexivity.
  - vm_compute; reflexivity.
  - eexists. vm_compute. right; right; left. reflexivity.
Defined.

(** A membership is released by [leaveRoom]: after it the socket is not in
    the room it names. *)
Lemma leaveRoom_releases sid r w :
  r <> "" -> ~ subscribed sid (Js.trim r) (leaveRoom sid (Js.Prim (Js.Str r)) w).1.
Proof.
  intros Hr (sock & Hs & Hin). unfold leaveRoom in Hs.
  destruct (io_sockets w !! sid) as [sock0|] eqn:Hsock; [|simpl in Hs; congruence].
  destruct (String.eqb_spec r ""); [done|]. simpl in Hs.
  rewrite lookup_alter_eq, Hsock in Hs. simplify_eq/=.
  apply elem_of_difference in Hin as [_ Hne]. apply Hne.
  by apply elem_of_singleton.
Qed.

(** A disconnected socket is in no room. *)
Lemma disconnect_removes sid r w : ~ subscribed sid r (disconnect sid w).1.
Proof.
  intros (sock & Hs & _). simpl in Hs. by rewrite lookup_delete_eq in Hs.
Qed.

(** C3. A join of a room the directory reports as absent fails with the
    not-found error and changes nothing: the world, and with it every
    membership of the socket, is the one before the call, the trace holds the
    directory query and the error sent to the caller, hence no history read
    and no notification. *)
Theorem joinRoom_not_found env sid room w sock name :
  io_sockets w !! sid = Some sock ->
  Js.nonblank_string_arg room = Some name ->
  readyState env = 1 \/ reconnectFails env = false ->
  roomQueryFails env = None ->
  Js.trim name ∉ db_rooms w ->
  joinRoom env sid room w
  = (w, [RoomFindOne (Js.trim name);
         Emit {[sid]} (EvError (RoomDoesNotExist (Js.trim name)))])
  /\ error_kind (RoomDoesNotExist (Js.trim name)) = NotFoundError
  /\ (forall r, subscribed sid r (joinRoom env sid room w).1 <-> subscribed sid r w)
  /\ (forall r n k, ~ In (MessageFind r n k) (joinRoom env sid room w).2)
  /\ (forall t ev, receives t ev (joinRoom env sid room w).2 ->
                   t = sid /\ ev = EvError (RoomDoesNotExist (Js.trim name))).
Proof.
  intros Hsock Hname Hdb Hquery Habsent.
  assert (joinRoom env sid room w
          = (w, [RoomFindOne (Js.trim name);
                 Emit {[sid]} (EvError (RoomDoesNotExist (Js.trim name)))]))
    as Heq.
  { unfold joinRoom, emit_error. rewrite Hsock, Hname, Hquery.
    replace (negb (Nat.eqb (readyState env) 1) && reconnectFails env)
      with false.
    - by destruct (decide (Js.trim name ∈ db_rooms w)).
    - destruct Hdb as [-> | ->]; [done|]. by rewrite andb_false_r. }
  rewrite Heq; simpl. repeat split; try done.
  - intros H. simpl in H. intuition discriminate.
  - destruct H as (R & [H|[H|[]]] & Ht); simplify_eq. set_solver.
  - destruct H as (R & [H|[H|[]]] & Ht); by simplify_eq.
Qed.

Lemma joinRoom_not_found_witness :
  joinRoom Sample.env "s2" (Sample.str "ghost-room") Sample.world
  = (Sample.world,
     [RoomFindOne "ghost-room";
      Emit {["s2"]} (EvError (RoomDoesNotExist "ghost-room"))]).
Proof.
  refine (proj1 (joinRoom_not_found Sample.env "s2" (Sample.str "ghost-room")
                   Sample.world Sample.bob "ghost-room" _ _ _ _ _)).
  - vm_compute; reflexivity.
  - reflexivity.
  - left; reflexivity.
  - reflexivity.
  - vm_compute. discriminate.
Defined.

(** C8, as stated, fails: the name [bad name!] is outside the grammar, yet
    the join queries the directory with it and fails with the not-found
    error, not with a validation error. *)
Lemma joinRoom_grammar_not_checked :
  RoomModel.valid_name (Js.trim "bad name!") = false
  /\ joinRoom Sample.env "s1" (Sample.str "bad name!") Sample.world
     = (Sample.world,
        [RoomFindOne "bad name!";
         Emit {["s1"]} (EvError (RoomDoesNotExist "bad name!"))])
  /\ error_kind (RoomDoesNotExist "bad name!") <> ValidationError.
Proof. split; [|split]; [vm_compute; reflexivity.. | discriminate]. Qed.

(** C8, amended: the only validation of a join is that the argument is a
    string with a character that is not white space. An argument that fails
    it gets the validation error and the directory is not queried; an
    argument that passes it never gets a validation error, whatever its
    characters and length, and with the database reachable its trimmed form
    is what the directory is queried with, first of all effects. *)
Theorem joinRoom_validates_nonblank_only env sid room w sock :
  io_sockets w !! sid = Some sock ->
  (Js.nonblank_string_arg room = None ->
   joinRoom env sid room w = (w, [Emit {[sid]} (EvError InvalidRoomName)])
   /\ error_kind InvalidRoomName = ValidationError)
  /\ (forall name, Js.nonblank_string_arg room = Some name ->
        (forall R e, In (Emit R (EvError e)) (joinRoom env sid room w).2 ->
                     error_kind e <> ValidationError)
        /\ (negb (Nat.eqb (readyState env) 1) && reconnectFails env = false ->
            exists rest, (joinRoom env sid room w).2
                         = RoomFindOne (Js.trim name) :: rest)).
Proof.
  intros Hsock. unfold joinRoom, emit_error. rewrite Hsock. split.
  - by intros ->.
  - intros name ->. split.
    + intros R e Hin.
      destruct (negb (Nat.eqb (readyState env) 1) && reconnectFails env);
        [simpl in Hin; intuition (simplify_eq; done)|].
      destruct (roomQueryFails env) as [[]|];
        [simpl in Hin; intuition (simplify_eq; done)..|].
      destruct (decide (Js.trim name ∈ db_rooms w));
        [destruct (messageQueryFails env)|];
        simpl in Hin; intuition (simplify_eq; done).
    + intros ->.
      destruct (roomQueryFails env) as [[]|]; [eauto..|].
      destruct (decide (Js.trim name ∈ db_rooms w));
        [destruct (messageQueryFails env)|]; eauto.
Qed.

Lemma joinRoom_validates_nonblank_only_witness :
  joinRoom Sample.env "s1" (Sample.str "   ") Sample.world
  = (Sample.world, [Emit {["s1"]} (EvError InvalidRoomName)]).
Proof.
  refine (proj1 (proj1 (joinRoom_validates_nonblank_only Sample.env "s1"
                          (Sample.str "   ") Sample.world Sample.alice _) _)).
  - vm_compute; reflexivity.
  - vm_compute; reflexivity.
Defined.




(** *** [chatMessage] *)

(** A name that passes the validators of the [User] schema has no white
    space, so trimming leaves it as it is. *)
Lemma name_char_not_ws c : UserModel.name_char c = true -> Js.is_ws c = false.
Proof.
  unfold UserModel.name_char, Js.is_ws.
  generalize (nat_of_ascii c); intros n H.
  repeat match goal with
         | |- context [Nat.leb ?a ?b] => destruct (Nat.leb_spec a b)
         | |- context [Nat.eqb ?a ?b] => destruct (Nat.eqb_spec a b)
         | H : context [Nat.leb ?a ?b] |- _ => destruct (Nat.leb_spec a b)
         | H : context [Nat.eqb ?a ?b] |- _ => destruct (Nat.eqb_spec a b)
         end; simpl in *; try done; lia.
Qed.

Lemma trimEnd_all_name_chars s :
  UserModel.all_name_chars s = true -> Js.trimEnd s = s.
Proof.
  induction s as [|c s IH]; simpl; [done|].
  intros [Hc Hs]%andb_prop. rewrite (IH Hs).
  destruct s; [|done]. by rewrite (name_char_not_ws c Hc).
Qed.

Lemma trim_valid_username name :
  UserModel.valid_username name = true -> Js.trim name = name.
Proof.
  unfold UserModel.valid_username. intros [_ Hchars]%andb_prop.
  unfold Js.trim. rewrite trimStart_fixed.
  - by apply trimEnd_all_name_chars.
  - destruct name as [|c s]; simpl in *; [done|].
    apply andb_prop in Hchars as [Hc _]. by apply name_char_not_ws.
Qed.

Lemma nonblank_string_Some v s : Js.nonblank_string v = Some s -> v = Js.Str s.
Proof.
  destruct v; simpl; try discriminate.
  destruct (Nat.eqb _ 0); intros; by simplify_eq.
Qed.

(** A send that published a message went through every check of the
    handler, and its save succeeded. *)
Lemma chatMessage_publish_inv env sid data w w' tr R p sock :
  io_sockets w !! sid = Some sock ->
  chatMessage env sid data w = (w', tr) ->
  In (Emit R (EvMessage p)) tr ->
  exists r t,
    Js.get "room" data = Some (Js.Str r)
    /\ Js.get "text" data = Some (Js.Str t)
    /\ String.length (Js.trim t) <> 0 /\ String.length t <= 1000
    /\ Js.trim r ∈ s_rooms sock
    /\ save env (MessageModel.new (newObjectId env) (Js.trim r)
                   (s_username sock) (Js.trim t) (now env)) w = Some w'
    /\ tr = [MessageSave (MessageModel.new (newObjectId env) (Js.trim r)
                            (s_username sock) (Js.trim t) (now env));
             Emit (io_to (Js.trim r) w')
                  (EvMessage {| m_id := newObjectId env; m_room := Js.trim r;
                                m_username := s_username sock;
                                m_text := Js.trim t; m_ts := now env |})].
Proof.
  intros Hsock Hsend Hin.
  unfold chatMessage in Hsend. rewrite Hsock in Hsend.
  destruct (Js.get "room" data) as [room|]; [|absurd_trace Hin].
  destruct (Js.get "text" data) as [text|]; [|absurd_trace Hin].
  destruct (Js.nonblank_string room) as [r|] eqn:Hr; [|absurd_trace Hin].
  destruct (Js.nonblank_string text) as [t|] eqn:Ht; [|absurd_trace Hin].
  destruct (Nat.ltb_spec 1000 (String.length t)); [absurd_trace Hin|].
  destruct (decide (Js.trim r ∈ s_rooms sock)); [|absurd_trace Hin].
  destruct (save env _ w) as [w1|] eqn:Hsave; [|absurd_trace Hin].
  simplify_eq. exists r, t.
  rewrite (nonblank_string_Some _ _ Hr), (nonblank_string_Some _ _ Ht).
  repeat split; try done.
  rewrite (nonblank_string_Some _ _ Ht) in Ht. simpl in Ht.
  destruct (Nat.eqb_spec (String.length (Js.trim t)) 0); by simplify_eq.
Qed.

Lemma save_Some env m w w' :
  save env m w = Some w' ->
  db_messages w' = db_messages w ++ [m] /\ io_sockets w' = io_sockets w
  /\ db_rooms w' = db_rooms w /\ MessageModel.validate m = true.
Proof.
  unfold save. destruct (MessageModel.validate m); simpl; [|done].
  destruct (saveFails env); simpl; [done|]. by intros [= <-].
Qed.

(** C6. A message is published only by a send whose save succeeded, after
    that save: the trace is the save followed by the publication, the saved
    document is the last of the collection, and the payload published to the
    room is that document: same identifier, room, author, text (the text of
    the request, trimmed) and timestamp (the clock of the server). *)
Theorem publish_after_append env sid data w w' tr R p sock :
  io_sockets w !! sid = Some sock ->
  UserModel.valid_username (s_username sock) = true ->
  chatMessage env sid data w = (w', tr) ->
  In (Emit R (EvMessage p)) tr ->
  exists m,
    tr = [MessageSave m; Emit R (EvMessage p)]
    /\ save env m w = Some w'
    /\ db_messages w' = db_messages w ++ [m]
    /\ p = m
    /\ R = io_to (m_room m) w'
    /\ m_username m = s_username sock
    /\ m_ts m = now env
    /\ exists t, Js.get "text" data = Some (Js.Str t) /\ m_text m = Js.trim t.
Proof.
  intros Hsock Hname Hsend Hin.
  destruct (chatMessage_publish_inv _ _ _ _ _ _ _ _ _ Hsock Hsend Hin)
    as (r & t & Hr & Ht & Hlen & Hmax & Hmem & Hsave & ->).
  assert (MessageModel.new (newObjectId env) (Js.trim r) (s_username sock)
            (Js.trim t) (now env)
          = {| m_id := newObjectId env; m_room := Js.trim r;
               m_username := s_username sock; m_text := Js.trim t;
               m_ts := now env |}) as Hdoc.
  { unfold MessageModel.new.
    by rewrite !trim_idemp, (trim_valid_username _ Hname). }
  rewrite Hdoc in *.
  simpl in Hin. destruct Hin as [Hin|[Hin|[]]]; simplify_eq.
  eexists. split; [reflexivity|]. split; [exact Hsave|].
  split; [by apply (save_Some _ _ _ _ Hsave)|].
  repeat split; eauto.
Qed.

Lemma publish_after_append_witness :
  let result := chatMessage Sample.env "s2" (Sample.payload "general" " hey ")
                            Sample.world in
  exists m,
    result.2 = [MessageSave m; Emit {["s2"]} (EvMessage m)]
    /\ db_messages result.1 = db_messages Sample.world ++ [m].
Proof.
  intros result.
  destruct (publish_after_append Sample.env "s2"
              (Sample.payload "general" " hey ") Sample.world
              result.1 result.2 {["s2"]}
              {| m_id := 7; m_room := "general"; m_username := "bob";
                 m_text := "hey"; m_ts := 1700000000500 |} Sample.bob)
    as (m & Htr & _ & Hdb & <- & _).
  - vm_compute; reflexivity.
  - vm_compute; reflexivity.
  - vm_compute; reflexivity.
  - vm_compute. right; left. reflexivity.
  - eauto.
Defined.




(** The text check of the socket path, in general: a text is accepted exactly
    when it has a character that is not white space and its length before
    trimming is at most 1000. *)
Lemma chatMessage_raw_length_checked env sid w sock r t :
  io_sockets w !! sid = Some sock ->
  Js.nonblank_string (Js.Str r) = Some r ->
  1000 < String.length t ->
  String.length (Js.trim t) <> 0 ->
  chatMessage env sid (Js.Object [("room", Js.Str r); ("text", Js.Str t)]) w
  = (w, [Emit {[sid]} (EvError MessageTooLong)]).
Proof.
  intros Hsock Hr Hlong Htrim. unfold chatMessage, emit_error.
  rewrite Hsock. cbn [Js.get find fst snd String.eqb Ascii.eqb Bool.eqb].
  simpl Js.get. rewrite Hr. simpl.
  destruct (Nat.eqb_spec (String.length (Js.trim t)) 0); [done|].
  destruct (Nat.ltb_spec 1000 (String.length t)); [done|lia].
Qed.

(** The text check of the REST path: a text passes the validation chain
    exactly when its trimmed length is between 1 and 1000. *)
Lemma post_validation_trimmed_length req :
  String.length (Js.trim (default "" (body_room req))) <> 0 ->
  (post_validation req = []
   <-> 1 <= String.length (Js.trim (default "" (body_text req))) <= 1000).
Proof.
  intros Hroom. unfold post_validation.
  destruct (Js.trim (default "" (body_room req))) as [|c room]; [done|].
  simpl String.eqb. cbn iota.
  destruct (Js.trim (default "" (body_text req))) as [|d text]; simpl.
  - split; [done|lia].
  - destruct (Nat.ltb_spec 1000 (S (String.length text))); simpl.
    + split; [done|lia].
    + split; [lia|done].
Qed.

(** C7 at the failing input: a text of 1001 characters whose trimmed form
    has one character is refused on the socket path, which measures the text
    before trimming it, and stored on the REST path and by the schema, which
    measure it after. *)
Theorem chatMessage_rejects_padded_text :
  String.length Sample.padded_text = 1001
  /\ String.length (Js.trim Sample.padded_text) = 1
  /\ chatMessage Sample.env "s2" (Sample.payload "general" Sample.padded_text)
                 Sample.world
     = (Sample.world, [Emit {["s2"]} (EvError MessageTooLong)])
  /\ MessageModel.validate
       (MessageModel.new 7 "general" "bob" Sample.padded_text 0) = true
  /\ (post_message Sample.jwt_decode Sample.aenv Sample.env
        {| post_authorization := Some "Bearer token-alice";
           body_room := Some "general";
           body_text := Some Sample.padded_text |} Sample.world).2
     = Created {| m_id := 7; m_room := "general"; m_username := "alice";
                  m_text := "a"; m_ts := 1700000000500 |}.
Proof. repeat split; vm_compute; reflexivity. Qed.

(** *** Stored messages and rooms *)

(** On the socket path a stored message is addressed to a room the sender
    is in. *)
Lemma chatMessage_saves_in_subscribed_room env sid data w w' tr m :
  chatMessage env sid data w = (w', tr) ->
  In (MessageSave m) tr ->
  subscribed sid (m_room m) w /\ db_messages w' = db_messages w ++ [m].
Proof.
  intros Hsend Hin. unfold chatMessage in Hsend.
  destruct (io_sockets w !! sid) as [sock|] eqn:Hsock; [|absurd_trace Hin].
  destruct (Js.get "room" data) as [room|]; [|absurd_trace Hin].
  destruct (Js.get "text" data) as [text|]; [|absurd_trace Hin].
  destruct (Js.nonblank_string room) as [r|] eqn:Hr; [|absurd_trace Hin].
  destruct (Js.nonblank_string text) as [t|] eqn:Ht; [|absurd_trace Hin].
  destruct (Nat.ltb_spec 1000 (String.length t)); [absurd_trace Hin|].
  destruct (decide (Js.trim r ∈ s_rooms sock)); [|absurd_trace Hin].
  destruct (save env _ w) as [w1|] eqn:Hsave; [|absurd_trace Hin].
  simplify_eq. simpl in Hin. destruct Hin as [Hin|[Hin|[]]]; simplify_eq.
  split; [|by apply (save_Some _ _ _ _ Hsave)].
  exists sock. split; [done|]. simpl. by rewrite trim_idemp.
Qed.

(** The one room a socket is in without a join is the private room of its
    own id: alice, who has joined no room, sends to the room [s1] of her own
    socket; the message is stored under that name and published to her. *)
Example chatMessage_own_room :
  let sent := {| m_id := 7; m_room := "s1"; m_username := "alice";
                 m_text := "note"; m_ts := 1700000000500 |} in
  chatMessage Sample.env "s1" (Sample.payload "s1" "note") Sample.world
  = (set_messages (db_messages Sample.world ++ [sent]) Sample.world,
     [MessageSave sent; Emit {["s1"]} (EvMessage sent)]).
Proof. vm_compute. reflexivity. Qed.

(** C4 at the failing input: the REST route stores a message for
    [ghost-room], a name with no document in the room collection. *)
Theorem post_message_ghost_room :
  let request := {| post_authorization := Some "Bearer token-alice";
                    body_room := Some "ghost-room";
                    body_text := Some "hi" |} in
  let ghost := {| m_id := 7; m_room := "ghost-room"; m_username := "alice";
                  m_text := "hi"; m_ts := 1700000000500 |} in
  let result := post_message Sample.jwt_decode Sample.aenv Sample.env request
                             Sample.world in
  ("ghost-room" ∉ db_rooms Sample.world)
  /\ result.2 = Created ghost
  /\ db_messages result.1 = db_messages Sample.world ++ [ghost]
  /\ db_rooms result.1 = db_rooms Sample.world.
Proof.
  repeat split; try (vm_compute; reflexivity).
  vm_compute. discriminate.
Qed.

(** *** The history read *)

Lemma insert_desc_perm m l : MessageModel.insert_desc m l ≡ₚ m :: l.
Proof.
  induction l as [|x l IH]; simpl; [done|].
  destruct (m_ts x <=? m_ts m)%Z; [done|].
  rewrite IH. apply Permutation_swap.
Qed.

Lemma sort_ts_desc_perm l : MessageModel.sort_ts_desc l ≡ₚ l.
Proof.
  induction l as [|x l IH]; simpl; [done|].
  by rewrite insert_desc_perm, IH.
Qed.

Lemma insert_desc_sorted m l :
  StronglySorted newer_first l ->
  StronglySorted newer_first (MessageModel.insert_desc m l).
Proof.
  induction 1 as [|x l Hl IH Hx]; simpl; [repeat constructor|].
  destruct (Z.leb_spec (m_ts x) (m_ts m)) as [Hle|Hlt].
  - constructor; [by constructor|].
    constructor; [exact Hle|].
    eapply Forall_impl; [exact Hx|]. unfold newer_first. intros y Hy. lia.
  - constructor; [exact IH|].
    rewrite insert_desc_perm. constructor; [|exact Hx].
    unfold newer_first. lia.
Qed.

Lemma sort_ts_desc_sorted l :
  StronglySorted newer_first (MessageModel.sort_ts_desc l).
Proof.
  induction l as [|x l IH]; simpl; [constructor|].
  by apply insert_desc_sorted.
Qed.

Lemma StronglySorted_take {A} (R : relation A) n l :
  StronglySorted R l -> StronglySorted R (take n l).
Proof.
  intros H. rewrite <- (take_drop n l) in H.
  by apply StronglySorted_app_1_l in H.
Qed.

Lemma StronglySorted_drop {A} (R : relation A) n l :
  StronglySorted R l -> StronglySorted R (drop n l).
Proof.
  intros H. rewrite <- (take_drop n l) in H.
  by apply StronglySorted_app_1_r in H.
Qed.

Lemma find_sorted_sorted room n k coll :
  StronglySorted newer_first (MessageModel.find_sorted room n k coll).
Proof.
  unfold MessageModel.find_sorted, MessageModel.limit.
  destruct n; [|apply StronglySorted_take];
    apply StronglySorted_drop, sort_ts_desc_sorted.
Qed.

Lemma find_sorted_length room n k coll :
  0 < n -> length (MessageModel.find_sorted room n k coll) <= n.
Proof.
  intros Hn. unfold MessageModel.find_sorted, MessageModel.limit.
  destruct n; [lia|]. rewrite length_take. lia.
Qed.

Lemma reverse_sorted_timestamps l :
  StronglySorted newer_first l -> Sorted Z.le (m_ts <$> reverse l).
Proof.
  intros H. apply StronglySorted_Sorted, Sorted_reverse in H.
  eapply Sorted_fmap; [|exact H]. by intros a b.
Qed.

(** Two arrangements of the same documents whose keys are distinct and
    appear in the same order are the same list. *)
Lemma Permutation_fmap_eq {A B} (f : A -> B) (l k : list A) :
  l ≡ₚ k -> NoDup (f <$> l) -> f <$> l = f <$> k -> l = k.
Proof.
  revert k. induction l as [|a l IH]; intros [|b k] Hperm Hnd Heq;
    simplify_eq/=; [done|].
  apply NoDup_cons in Hnd as [Ha Hnd].
  assert (a = b) as ->.
  { assert (b ∈ a :: l) as Hb by (rewrite Hperm; left).
    apply elem_of_cons in Hb as [->|Hb]; [done|].
    destruct Ha. rewrite H. by apply list_elem_of_fmap_2. }
  f_equal. apply IH; [|done|done].
  by apply Permutation.Permutation_cons_inv in Hperm.
Qed.

Lemma recent_last_n room n w :
  0 < n ->
  recent room n 0 w
  = last_n n (reverse (MessageModel.sort_ts_desc (room_messages room w))).
Proof.
  intros Hn.
  unfold recent, MessageModel.find_sorted, MessageModel.limit, last_n.
  destruct n; [lia|]. rewrite drop_0, reverse_take.
  by rewrite length_reverse.
Qed.

(** The limit and the offset of a validated REST request: the limit is
    between 1 and 100, and 50 when the request names none. *)
Lemma effective_limit_validated req :
  get_validation req = [] ->
  1 <= effective_limit (query_limit req) <= 100.
Proof.
  unfold get_validation, effective_limit.
  destruct (String.eqb _ ""); [done|]. simpl.
  destruct (query_limit req) as [l|]; [|lia].
  destruct (Z.leb_spec 1 l), (Z.leb_spec l 100); simpl; try done.
  intros _. destruct (Z.eqb_spec l 0); lia.
Qed.

(** C5. A history read with a limit [n] returns at most [n] messages, in
    non-decreasing order of timestamp; [n] is 50 on the socket path and when
    the REST request names no limit. Read from the newest message
    ([skip] 0), the result of sorting newest first, taking [n] and reversing
    is the last [n] messages of the room in chronological order: it has the
    timestamps of the last [n] elements of every chronological arrangement
    of the messages of the room, and is those elements when no two messages
    of the room have the same timestamp. *)
Theorem recent_chronological_tail room n k w :
  0 < n ->
  length (recent room n k w) <= n
  /\ Sorted Z.le (m_ts <$> recent room n k w)
  /\ recent room n 0 w
     = last_n n (reverse (MessageModel.sort_ts_desc (room_messages room w)))
  /\ (forall chron,
        chron ≡ₚ room_messages room w ->
        Sorted older_first chron ->
        m_ts <$> recent room n 0 w = m_ts <$> last_n n chron
        /\ (NoDup (m_ts <$> room_messages room w) ->
            recent room n 0 w = last_n n chron))
  /\ effective_limit None = 50.
Proof.
  intros Hn.
  split; [|split; [|split; [|split]]].
  - unfold recent. rewrite length_reverse. by apply find_sorted_length.
  - apply reverse_sorted_timestamps, find_sorted_sorted.
  - by apply recent_last_n.
  - intros chron Hperm Hchron. rewrite (recent_last_n room n w Hn).
    set (asc := reverse (MessageModel.sort_ts_desc (room_messages room w))).
    assert (asc ≡ₚ chron) as Hasc.
    { unfold asc. by rewrite reverse_Permutation, sort_ts_desc_perm, Hperm. }
    assert (m_ts <$> asc = m_ts <$> chron) as Hts.
    { apply (Sorted_unique Z.le).
      - apply reverse_sorted_timestamps, sort_ts_desc_sorted.
      - eapply Sorted_fmap; [|exact Hchron]. by intros a b.
      - by rewrite Hasc. }
    split.
    + unfold last_n. rewrite !fmap_drop, Hts.
      by rewrite <- (length_fmap m_ts asc), <- (length_fmap m_ts chron), Hts.
    + intros Hnd. f_equal. apply (Permutation_fmap_eq m_ts); [done| |done].
      by rewrite Hasc, Hperm.
  - reflexivity.
Qed.

Lemma recent_chronological_tail_witness :
  recent "general" 1 0 Sample.world = [Sample.hi]
  /\ recent "general" 1 0 Sample.world
     = last_n 1 [Sample.hello; Sample.hi].
Proof.
  destruct (recent_chronological_tail "general" 1 0 Sample.world)
    as (_ & _ & Heq & Hchron & _); [lia|].
  split; [rewrite Heq; vm_compute; reflexivity|].
  apply (Hchron [Sample.hello; Sample.hi]).
  - vm_compute. reflexivity.
  - repeat constructor; unfold older_first; simpl; lia.
  - vm_compute. apply NoDup_cons. split; [|apply NoDup_singleton].
    intros H%list_elem_of_singleton. discriminate H.
Defined.

(** *** Authentication *)

Section AuthFacts.

Variable jwt_decode : string -> option Jwt.

(** What [jwt.verify] accepts: exactly the tokens that decode and are signed
    with the secret, already active and not expired. *)
Lemma jwt_verify_inr secret t token j :
  jwt_verify jwt_decode secret t token = inr j
  <-> jwt_decode token = Some j /\ current secret t j.
Proof.
  unfold jwt_verify, current. split.
  - destruct (jwt_decode token) as [j'|]; [|done].
    destruct (String.eqb_spec (jwt_key j') secret) as [Hkey|Hkey]; simpl;
      [|done].
    destruct (jwt_nbf j') as [n|] eqn:Hn.
    + destruct (Z.ltb_spec t n) as [Hlt|Hle]; [done|].
      destruct (jwt_exp j') as [e|] eqn:He.
      * destruct (Z.leb_spec e t) as [Hexp|Hexp]; [done|].
        intros [= <-]. rewrite Hn, He.
        split; [done|]. split; [done|].
        split; intros x Hx; simplify_eq; lia.
      * intros [= <-]. rewrite Hn, He.
        split; [done|]. split; [done|].
        split; intros x Hx; simplify_eq; lia.
    + destruct (jwt_exp j') as [e|] eqn:He.
      * destruct (Z.leb_spec e t) as [Hexp|Hexp]; [done|].
        intros [= <-]. rewrite Hn, He.
        split; [done|]. split; [done|].
        split; intros x Hx; simplify_eq; lia.
      * intros [= <-]. rewrite Hn, He.
        split; [done|]. split; [done|].
        split; intros x Hx; simplify_eq.
  - intros (-> & Hkey & Hnbf & Hexp).
    destruct (String.eqb_spec (jwt_key j) secret) as [_|Hne]; [simpl|done].
    destruct (jwt_nbf j) as [n|].
    + specialize (Hnbf n eq_refl). destruct (Z.ltb_spec t n); [lia|].
      destruct (jwt_exp j) as [e|]; [|done].
      specialize (Hexp e eq_refl). by destruct (Z.leb_spec e t); [lia|].
    + destruct (jwt_exp j) as [e|]; [|done].
      specialize (Hexp e eq_refl). by destruct (Z.leb_spec e t); [lia|].
Qed.

Lemma jwt_verify_malformed secret t token :
  jwt_decode token = None ->
  jwt_verify jwt_decode secret t token = inl JsonWebTokenError.
Proof. intros Hd. unfold jwt_verify. by rewrite Hd. Qed.

Lemma jwt_verify_bad_signature secret t token j :
  jwt_decode token = Some j -> jwt_key j <> secret ->
  jwt_verify jwt_decode secret t token = inl JsonWebTokenError.
Proof.
  intros Hd Hk. unfold jwt_verify. rewrite Hd.
  by destruct (String.eqb_spec (jwt_key j) secret).
Qed.

Lemma jwt_verify_not_active secret t token j n :
  jwt_decode token = Some j -> jwt_key j = secret ->
  jwt_nbf j = Some n -> (t < n)%Z ->
  jwt_verify jwt_decode secret t token = inl NotBeforeError.
Proof.
  intros Hd Hk Hn Hlt. unfold jwt_verify. rewrite Hd, Hk, Hn.
  rewrite String.eqb_refl. simpl.
  by destruct (Z.ltb_spec t n); [|lia].
Qed.

Lemma jwt_verify_expired secret t token j e :
  jwt_decode token = Some j -> jwt_key j = secret ->
  (forall n, jwt_nbf j = Some n -> (n <= t)%Z) ->
  jwt_exp j = Some e -> (e <= t)%Z ->
  jwt_verify jwt_decode secret t token = inl TokenExpiredError.
Proof.
  intros Hd Hk Hn He Hle. unfold jwt_verify. rewrite Hd, Hk, He.
  rewrite String.eqb_refl. simpl.
  destruct (jwt_nbf j) as [n|].
  - specialize (Hn n eq_refl). destruct (Z.ltb_spec t n); [lia|].
    by destruct (Z.leb_spec e t); [|lia].
  - by destruct (Z.leb_spec e t); [|lia].
Qed.

(** C9, amended. A handshake is accepted exactly when it carries a credential
    that decodes, is signed with the secret of the server, is active and not
    expired, and whose [userId] claim is the id of a stored user (the user
    store answering). The socket is then connected with that user id and with
    the name the store holds for that user, in the private room of its own
    id; its name is the [username] claim of the credential exactly when that
    claim is the stored name. Every other handshake is refused with the error of its defect: no
    token; a token that does not decode or is signed with another key; a
    token that is not active yet; an expired token; a [userId] claim that is
    absent or resolves to no stored user. A refusal leaves the world as it
    was: no socket is kept. *)
Theorem connect_identity aenv sid hs w :
  (forall decoded uid user,
      credential_resolves jwt_decode aenv hs w decoded uid user ->
      userQueryFails aenv = false ->
      exists w' sock,
        connect jwt_decode aenv sid hs w = (w', None)
        /\ io_sockets w' !! sid = Some sock
        /\ s_userId sock = uid /\ s_username sock = u_username user
        /\ s_rooms sock = {[sid]}
        /\ Some (s_userId sock) = jwt_userId decoded
        /\ (Some (s_username sock) = jwt_username decoded
            <-> jwt_username decoded = Some (u_username user)))
  /\ (forall w',
         connect jwt_decode aenv sid hs w = (w', None) ->
         userQueryFails aenv = false
         /\ exists decoded uid user,
              credential_resolves jwt_decode aenv hs w decoded uid user)
  /\ ((forall decoded uid user,
          ~ credential_resolves jwt_decode aenv hs w decoded uid user) ->
      exists err,
        connect jwt_decode aenv sid hs w = (w, Some err)
        /\ (handshake_token hs = None \/ handshake_token hs = Some "" ->
            err = NoTokenProvided)
        /\ (forall c token,
               handshake_token hs = Some (String c token) ->
               (jwt_decode (String c token) = None -> err = InvalidToken)
               /\ (forall j,
                      jwt_decode (String c token) = Some j ->
                      (jwt_key j <> JWT_SECRET aenv -> err = InvalidToken)
                      /\ (jwt_key j = JWT_SECRET aenv ->
                          (forall n, jwt_nbf j = Some n ->
                                     (clock aenv < n)%Z ->
                                     err = OtherFailure "jwt not active")
                          /\ ((forall n, jwt_nbf j = Some n ->
                                         (n <= clock aenv)%Z) ->
                              (forall e, jwt_exp j = Some e ->
                                         (e <= clock aenv)%Z ->
                                         err = TokenExpired)
                              /\ ((forall e, jwt_exp j = Some e ->
                                             (clock aenv < e)%Z) ->
                                  userQueryFails aenv = false ->
                                  err = UserNotFound))))))
  /\ (forall err, (connect jwt_decode aenv sid hs w).2 = Some err ->
                  (connect jwt_decode aenv sid hs w).1 = w).
Proof.
  split; [|split; [|split]].
  - intros decoded uid user (c & token & Htok & Hdec & Hcur & Hid & Huser)
      Hquery.
    unfold connect, socket_auth, findById.
    rewrite Htok, (proj2 (jwt_verify_inr _ _ _ _) (conj Hdec Hcur)).
    rewrite Hquery, Hid, Huser.
    eexists _, _. split; [reflexivity|]. simpl.
    rewrite lookup_insert_eq. do 4 (split; [reflexivity|]).
    split; [done|]. split; intros H; exact (eq_sym H).
  - intros w'. unfold connect, socket_auth.
    destruct (handshake_token hs) as [[|c token]|] eqn:Htok; [done| |done].
    destruct (jwt_verify jwt_decode _ _ (String c token))
      as [[]|decoded] eqn:Hver; [done..|].
    apply jwt_verify_inr in Hver as [Hdec Hcur].
    destruct (userQueryFails aenv); [done|].
    unfold findById.
    destruct (jwt_userId decoded) as [uid|] eqn:Hid; [|done].
    destruct (db_users w !! uid) as [user|] eqn:Huser; [|done].
    intros _. split; [done|]. exists decoded, uid, user, c, token. eauto.
  - intros Hnone. unfold connect, socket_auth.
    destruct (handshake_token hs) as [[|c token]|] eqn:Htok.
    + eexists. split; [done|]. split; [done|]. intros ? ? [=].
    + destruct (jwt_verify jwt_decode _ _ (String c token))
        as [[]|decoded] eqn:Hver.
      * eexists. split; [done|]. split; [by intros [|]|].
        intros c' token' [= <- <-]. split; [done|]. intros j Hdec.
        split; [done|]. intros Hkey. split.
        -- intros n Hn Hlt.
           by rewrite (jwt_verify_not_active _ _ _ _ _ Hdec Hkey Hn Hlt)
             in Hver.
        -- intros Hnbf. split.
           ++ intros e He Hle.
              by rewrite (jwt_verify_expired _ _ _ _ _ Hdec Hkey Hnbf He Hle)
                in Hver.
           ++ intros Hexp _.
              by rewrite (proj2 (jwt_verify_inr _ _ _ _)
                            (conj Hdec (conj Hkey (conj Hnbf Hexp)))) in Hver.
      * eexists. split; [done|]. split; [by intros [|]|].
        intros c' token' [= <- <-]. split.
        -- intros Hdec. by rewrite (jwt_verify_malformed _ _ _ Hdec) in Hver.
        -- intros j Hdec. split.
           ++ intros Hkey.
              by rewrite (jwt_verify_bad_signature _ _ _ _ Hdec Hkey) in Hver.
           ++ intros Hkey. split; [done|]. intros Hnbf. split.
              ** intros e He Hle.
                 by rewrite (jwt_verify_expired _ _ _ _ _ Hdec Hkey Hnbf He
                               Hle) in Hver.
              ** intros Hexp _.
                 by rewrite (proj2 (jwt_verify_inr _ _ _ _)
                               (conj Hdec (conj Hkey (conj Hnbf Hexp))))
                   in Hver.
      * eexists. split; [done|]. split; [by intros [|]|].
        intros c' token' [= <- <-]. split.
        -- intros Hdec. by rewrite (jwt_verify_malformed _ _ _ Hdec) in Hver.
        -- intros j Hdec. split.
           ++ intros Hkey.
              by rewrite (jwt_verify_bad_signature _ _ _ _ Hdec Hkey) in Hver.
           ++ intros Hkey. split.
              ** intros n Hn Hlt.
                 by rewrite (jwt_verify_not_active _ _ _ _ _ Hdec Hkey Hn Hlt)
                   in Hver.
              ** intros Hnbf. split; [done|]. intros Hexp _.
                 by rewrite (proj2 (jwt_verify_inr _ _ _ _)
                               (conj Hdec (conj Hkey (conj Hnbf Hexp))))
                   in Hver.
      * pose proof Hver as Hver'.
        apply jwt_verify_inr in Hver' as [Hdec Hcur].
        assert (Hfail : forall err : AuthFailure,
                   (userQueryFails aenv = false -> err = UserNotFound) ->
                   (forall c0 token0,
                       Some (String c token) = Some (String c0 token0) ->
                       (jwt_decode (String c0 token0) = None ->
                        err = InvalidToken)
                       /\ (forall j,
                              jwt_decode (String c0 token0) = Some j ->
                              (jwt_key j <> JWT_SECRET aenv ->
                               err = InvalidToken)
                              /\ (jwt_key j = JWT_SECRET aenv ->
                                  (forall n, jwt_nbf j = Some n ->
                                             (clock aenv < n)%Z ->
                                             err = OtherFailure "jwt not active")
                                  /\ ((forall n, jwt_nbf j = Some n ->
                                                 (n <= clock aenv)%Z) ->
                                      (forall e, jwt_exp j = Some e ->
                                                 (e <= clock aenv)%Z ->
                                                 err = TokenExpired)
                                      /\ ((forall e, jwt_exp j = Some e ->
                                                     (clock aenv < e)%Z) ->
                                          userQueryFails aenv = false ->
                                          err = UserNotFound)))))).
        { intros err Herr c' token' [= <- <-].
          destruct Hcur as (Hkey & Hnbf & Hexp).
          split; [by rewrite Hdec|]. intros j Hj.
          rewrite Hdec in Hj. injection Hj as <-.
          split; [done|]. intros _. split.
          - intros n Hn Hlt. specialize (Hnbf n Hn). lia.
          - intros _. split.
            + intros e He Hle. specialize (Hexp e He). lia.
            + intros _. exact Herr. }
        destruct (userQueryFails aenv) eqn:Hquery.
        { eexists. split; [done|]. split; [by intros [|]|].
          apply Hfail. done. }
        unfold findById.
        destruct (jwt_userId decoded) as [uid|] eqn:Hid.
        -- destruct (db_users w !! uid) as [user|] eqn:Huser.
           ++ destruct (Hnone decoded uid user). exists c, token. eauto.
           ++ eexists. split; [done|]. split; [by intros [|]|].
              by apply Hfail.
        -- eexists. split; [done|]. split; [by intros [|]|]. by apply Hfail.
    + eexists. split; [done|]. split; [done|]. intros ? ? [=].
  - intros err. unfold connect.
    by destruct (socket_auth jwt_decode aenv hs w) as [e|[uid name]].
Qed.

End AuthFacts.

(** C9, as stated, fails for the name: a credential that verifies and names
    the stored user [u1] by another name than the store does is accepted, and
    the session carries the name of the store, not the name encoded in the
    credential. *)
Lemma connect_username_from_store :
  let hs := {| auth_token := Some "token-renamed"; authorization := None |} in
  let decoded := Sample.token "secret" 1700086400 "u1" "alicia" in
  credential_resolves Sample.jwt_decode Sample.aenv hs Sample.world
                      decoded "u1" (mkUser "alice")
  /\ exists w' sock,
       connect Sample.jwt_decode Sample.aenv "s3" hs Sample.world = (w', None)
       /\ io_sockets w' !! "s3" = Some sock
       /\ jwt_username decoded = Some "alicia"
       /\ s_username sock = "alice".
Proof.
  split.
  - exists "t"%char, "oken-renamed".
    split; [reflexivity|]. split; [reflexivity|]. split; [|by split].
    split; [reflexivity|]. split; [by intros n [=]|].
    intros e [= <-]. reflexivity.
  - eexists _, _. split; [vm_compute; reflexivity|].
    split; [vm_compute; reflexivity|]. by split.
Qed.

Lemma connect_identity_witness :
  (exists w' sock,
      connect Sample.jwt_decode Sample.aenv "s3"
              {| auth_token := Some "token-alice"; authorization := None |}
              Sample.world = (w', None)
      /\ io_sockets w' !! "s3" = Some sock
      /\ s_userId sock = "u1" /\ s_username sock = "alice")
  /\ connect Sample.jwt_decode Sample.aenv "s3"
             {| auth_token := Some "token-expired"; authorization := None |}
             Sample.world = (Sample.world, Some TokenExpired).
Proof.
  split.
  - destruct (proj1 (connect_identity Sample.jwt_decode Sample.aenv "s3"
                       {| auth_token := Some "token-alice";
                          authorization := None |} Sample.world)
                (Sample.token "secret" 1700086400 "u1" "alice") "u1"
                (mkUser "alice"))
      as (w' & sock & Hc & Hs & Hid & Hname & _).
    + exists "t"%char, "oken-alice".
      split; [reflexivity|]. split; [reflexivity|]. split; [|by split].
      split; [reflexivity|]. split; [by intros n [=]|].
      intros e [= <-]. reflexivity.
    + reflexivity.
    + exists w', sock. auto.
  - destruct (proj1 (proj2 (proj2
               (connect_identity Sample.jwt_decode Sample.aenv "s3"
                  {| auth_token := Some "token-expired";
                     authorization := None |} Sample.world))))
      as (err & Hc & _ & Herr).
    + intros decoded uid user (c & token & Htok & Hdec & Hcur & _).
      injection Htok as <- <-. vm_compute in Hdec. injection Hdec as <-.
      destruct Hcur as (_ & _ & Hexp).
      specialize (Hexp _ eq_refl). vm_compute in Hexp. discriminate Hexp.
    + destruct (Herr "t"%char "oken-expired" eq_refl) as [_ Hj].
      destruct (Hj _ eq_refl) as [_ Hkey].
      destruct (Hkey eq_refl) as [_ Hnbf].
      destruct Hnbf as [Hexp _]; [by intros n [=]|].
      rewrite Hc. f_equal. f_equal. apply (Hexp 1600000000%Z); [reflexivity|].
      vm_compute. discriminate.
Defined.

(** The refusals of the four defects, on the sample tokens. *)
Example connect_refusals :
  let attempt hs := connect Sample.jwt_decode Sample.aenv "s3" hs Sample.world in
  attempt {| auth_token := None; authorization := None |}
  = (Sample.world, Some NoTokenProvided)
  /\ attempt {| auth_token := Some "garbage"; authorization := None |}
     = (Sample.world, Some InvalidToken)
  /\ attempt {| auth_token := Some "token-forged"; authorization := None |}
     = (Sample.world, Some InvalidToken)
  /\ attempt {| auth_token := None;
                authorization := Some "Bearer token-expired" |}
     = (Sample.world, Some TokenExpired)
  /\ attempt {| auth_token := Some "token-deleted"; authorization := None |}
     = (Sample.world, Some UserNotFound).
Proof. repeat split; vm_compute; reflexivity. Qed.

(** * Further properties *)

(** ** Joining and leaving *)

Lemma set_rooms_id s : set_rooms (s_rooms s) s = s.
Proof. by destruct s. Qed.

Lemma socket_join_idemp sid r w :
  socket_join sid r (socket_join sid r w) = socket_join sid r w.
Proof.
  unfold socket_join, set_sockets; simpl. f_equal.
  apply map_eq. intros i. destruct (decide (i = sid)) as [->|Hne].
  - rewrite !lookup_alter_eq. destruct (io_sockets w !! sid) as [s|]; [|done].
    simpl. unfold set_rooms; simpl. do 2 f_equal.
    apply set_eq. intros x. rewrite !elem_of_union. tauto.
  - by rewrite !lookup_alter_ne.
Qed.

(** X1. Joining a room the socket has just joined changes nothing more: the
    second join, in the same environment, leaves the world of the first as
    it is and produces the same effects, with the same history. *)
Theorem joinRoom_idempotent env sid room w w' tr r sock :
  io_sockets w !! sid = Some sock ->
  joinRoom env sid room w = (w', tr) ->
  join_succeeded sid r tr ->
  joinRoom env sid room w' = (w', tr).
Proof.
  intros Hsock Hjoin Hok.
  destruct (joinRoom_success_inv _ _ _ _ _ _ _ _ Hsock Hjoin Hok)
    as (name & Hname & -> & Hroom & -> & ->).
  pose proof Hjoin as Hfirst.
  unfold joinRoom in Hfirst |- *.
  rewrite Hsock, Hname in Hfirst. rewrite socket_join_lookup, Hsock, Hname.
  simpl.
  destruct (negb (Nat.eqb (readyState env) 1) && reconnectFails env);
    [by simplify_eq|].
  destruct (roomQueryFails env); [by simplify_eq|].
  destruct (decide (Js.trim name ∈ db_rooms w)); [|done].
  destruct (decide (Js.trim name ∈ db_rooms (socket_join sid (Js.trim name) w)));
    [|done].
  destruct (messageQueryFails env); [by simplify_eq|].
  by rewrite socket_join_idemp.
Qed.

Lemma joinRoom_idempotent_witness :
  let first := joinRoom Sample.env "s1" (Sample.str "general") Sample.world in
  joinRoom Sample.env "s1" (Sample.str "general") first.1 = first.
Proof.
  intros first.
  rewrite (joinRoom_idempotent Sample.env "s1" (Sample.str "general")
             Sample.world first.1 first.2 "general" Sample.alice).
  - vm_compute; reflexivity.
  - vm_compute; reflexivity.
  - vm_compute; reflexivity.
  - eexists. vm_compute. right; right; left. reflexivity.
Defined.

(** X2. The room name of a join is trimmed before anything else is done with
    it: a name with white space around it behaves in every respect as the
    trimmed name. *)
Theorem joinRoom_trims_name env sid r w :
  joinRoom env sid (Js.Prim (Js.Str r)) w
  = joinRoom env sid (Js.Prim (Js.Str (Js.trim r))) w.
Proof.
  unfold joinRoom. destruct (io_sockets w !! sid) as [sock|]; [|done].
  simpl. rewrite !trim_idemp.
  destruct (Nat.eqb (String.length (Js.trim r)) 0); [done|].
  by rewrite !trim_idemp.
Qed.

(** ** The history read, continued *)

Lemma limit_In {A} n (l : list A) x : In x (MessageModel.limit n l) -> In x l.
Proof.
  unfold MessageModel.limit. destruct n; [done|].
  rewrite <- !list_elem_of_In. apply subseteq_take.
Qed.

Lemma recent_In room n k w m :
  In m (recent room n k w) -> In m (room_messages room w).
Proof.
  unfold recent, MessageModel.find_sorted, room_messages.
  rewrite <- list_elem_of_In, elem_of_reverse, list_elem_of_In.
  intros H%limit_In. rewrite <- list_elem_of_In in *.
  apply subseteq_drop in H. by rewrite sort_ts_desc_perm in H.
Qed.

Lemma room_messages_In room w m :
  In m (room_messages room w) <-> In m (db_messages w) /\ m_room m = room.
Proof.
  unfold room_messages. rewrite <- !list_elem_of_In, list_elem_of_filter.
  tauto.
Qed.



(** X4. When the history read fails after the room was found, the caller is
    told that the join failed, yet the socket has been put in the room: it
    receives what is published there from then on. *)
Theorem joinRoom_member_despite_failure env sid room w sock name :
  io_sockets w !! sid = Some sock ->
  Js.nonblank_string_arg room = Some name ->
  readyState env = 1 \/ reconnectFails env = false ->
  roomQueryFails env = None ->
  Js.trim name ∈ db_rooms w ->
  messageQueryFails env = true ->
  (joinRoom env sid room w).2
  = [RoomFindOne (Js.trim name); MessageFind (Js.trim name) 50 0;
     Emit {[sid]} (EvError FailedToJoinRoom)]
  /\ subscribed sid (Js.trim name) (joinRoom env sid room w).1
  /\ sid ∈ io_to (Js.trim name) (joinRoom env sid room w).1.
Proof.
  intros Hsock Hname Hdb Hquery Hroom Hfail.
  assert (joinRoom env sid room w
          = (socket_join sid (Js.trim name) w,
             [RoomFindOne (Js.trim name); MessageFind (Js.trim name) 50 0;
              Emit {[sid]} (EvError FailedToJoinRoom)])) as ->.
  { unfold joinRoom, emit_error. rewrite Hsock, Hname, Hquery, Hfail.
    replace (negb (Nat.eqb (readyState env) 1) && reconnectFails env)
      with false.
    - by destruct (decide (Js.trim name ∈ db_rooms w)).
    - destruct Hdb as [-> | ->]; [done|]. by rewrite andb_false_r. }
  assert (subscribed sid (Js.trim name) (socket_join sid (Js.trim name) w)).
  { eexists. rewrite socket_join_lookup, Hsock. split; [reflexivity|].
    simpl. apply elem_of_union_l. by apply elem_of_singleton. }
  split; [done|]. split; [done|]. by apply elem_of_io_to.
Qed.

Lemma joinRoom_member_despite_failure_witness :
  subscribed "s1" "general"
    (joinRoom {| readyState := 1; reconnectFails := false;
                 roomQueryFails := None; messageQueryFails := true;
                 saveFails := false; now := 0; newObjectId := 0 |}
              "s1" (Sample.str "general") Sample.world).1.
Proof.
  refine (proj1 (proj2 (joinRoom_member_despite_failure _ "s1"
                          (Sample.str "general") Sample.world Sample.alice
                          "general" _ _ _ _ _ _))).
  - vm_compute; reflexivity.
  - reflexivity.
  - left; reflexivity.
  - reflexivity.
  - vm_compute; reflexivity.
  - reflexivity.
Defined.

(** ** What the socket handlers answer and to whom *)

(** Splits the outcome of a handler, given as an equation [H], into the
    cases of its checks. *)
Ltac handler_cases H :=
  repeat match type of H with
         | context [match ?x with _ => _ end] => destruct x eqn:?
         end;
  simplify_eq.

(** Splits a hypothesis [H : In e tr], for an explicit trace [tr], into one
    case for each effect of the trace that [e] can be. *)
Ltac trace_cases H :=
  simpl in H;
  repeat (destruct H as [H|H]; [simplify_eq|]);
  try (destruct H).

Lemma io_to_connected t r w : t ∈ io_to r w -> is_Some (io_sockets w !! t).
Proof. intros (sock & Hs & _)%elem_of_io_to. eauto. Qed.

Lemma save_sockets env m w w' : save env m w = Some w' -> io_sockets w' = io_sockets w.
Proof. intros H. by apply save_Some in H as (_ & ? & _). Qed.

Lemma socket_join_connected sid r w t :
  is_Some (io_sockets (socket_join sid r w) !! t) <-> is_Some (io_sockets w !! t).
Proof.
  unfold socket_join; simpl. destruct (decide (sid = t)) as [->|Hne].
  - rewrite lookup_alter_eq. by rewrite fmap_is_Some.
  - by rewrite lookup_alter_ne.
Qed.

(** X5. A socket handler delivers events only to connected sockets: a socket
    that is not connected when [joinRoom] or [chatMessage] runs, for any
    caller, receives nothing from it. In particular nothing reaches a socket
    after its disconnection. *)
Theorem disconnected_receives_nothing sid w :
  io_sockets w !! sid = None ->
  forall env caller arg ev,
    ~ receives sid ev (joinRoom env caller arg w).2
    /\ ~ receives sid ev (chatMessage env caller arg w).2.
Proof.
  intros Hoff env caller arg ev. split.
  - intros (R & Hin & Ht).
    destruct (joinRoom env caller arg w) as [w' tr] eqn:Hjoin.
    unfold joinRoom, emit_error in Hjoin. handler_cases Hjoin;
      trace_cases Hin;
      try (apply elem_of_singleton in Ht as ->; congruence).
    apply elem_of_socket_to in Ht as [(joined_sock & Hjoined & _) _].
    assert (is_Some (io_sockets w !! sid)) as [? ?]; [|congruence].
    eapply socket_join_connected. eauto.
  - intros (R & Hin & Ht).
    destruct (chatMessage env caller arg w) as [w' tr] eqn:Hsend.
    unfold chatMessage, emit_error in Hsend. handler_cases Hsend;
      trace_cases Hin;
      try (apply elem_of_singleton in Ht as ->; congruence).
    apply io_to_connected in Ht as [member Hmember].
    erewrite save_sockets in Hmember by eassumption. congruence.
Qed.

Lemma disconnected_receives_nothing_witness :
  let w := (disconnect "s2" Sample.world).1 in
  let said := EvMessage {| m_id := 7; m_room := "general";
                           m_username := "alice"; m_text := "hi";
                           m_ts := 1700000000500 |} in
  ~ receives "s2" said
      (joinRoom Sample.env "s1" (Sample.payload "general" "hi") w).2
  /\ ~ receives "s2" said
        (chatMessage Sample.env "s1" (Sample.payload "general" "hi") w).2.
Proof.
  apply (disconnected_receives_nothing "s2" (disconnect "s2" Sample.world).1).
  vm_compute; reflexivity.
Defined.

(** The recipients of a published message. *)
Lemma publish_recipients env sid data w w' tr R p :
  chatMessage env sid data w = (w', tr) ->
  In (Emit R (EvMessage p)) tr ->
  sid ∈ R /\ (forall t, t ∈ R <-> subscribed t (m_room p) w).
Proof.
  intros Hsend Hin.
  destruct (io_sockets w !! sid) as [sock|] eqn:Hsock.
  - destruct (chatMessage_publish_inv _ _ _ _ _ _ _ _ _ Hsock Hsend Hin)
      as (r & t & _ & _ & _ & _ & Hmem & Hsave & ->).
    simpl in Hin. destruct Hin as [Hin|[Hin|[]]]; simplify_eq/=.
    assert (forall t', t' ∈ io_to (Js.trim r) w' <-> subscribed t' (Js.trim r) w)
      as Hiff.
    { intros t'. rewrite elem_of_io_to. unfold subscribed.
      by rewrite (save_sockets _ _ _ _ Hsave). }
    split; [|exact Hiff]. apply Hiff. by exists sock.
  - unfold chatMessage in Hsend. rewrite Hsock in Hsend. by simplify_eq.
Qed.

(** X6. A published message is received by exactly the sockets that are in
    its room when it is sent, the sender among them. *)
Theorem chatMessage_delivery env sid data w w' tr p :
  chatMessage env sid data w = (w', tr) ->
  (exists R, In (Emit R (EvMessage p)) tr) ->
  receives sid (EvMessage p) tr
  /\ (forall t, receives t (EvMessage p) tr <-> subscribed t (m_room p) w).
Proof.
  intros Hsend [R Hin].
  destruct (publish_recipients _ _ _ _ _ _ _ _ Hsend Hin) as [Hself Hall].
  split; [by exists R|]. intros t. split.
  - intros (R' & Hin' & Ht).
    by apply (publish_recipients _ _ _ _ _ _ _ _ Hsend Hin').
  - intros Ht. exists R. split; [done|]. by apply Hall.
Qed.

Lemma chatMessage_delivery_witness :
  let result := chatMessage Sample.env "s2" (Sample.payload "general" "hey")
                            Sample.world in
  let sent := {| m_id := 7; m_room := "general"; m_username := "bob";
                 m_text := "hey"; m_ts := 1700000000500 |} in
  receives "s2" (EvMessage sent) result.2
  /\ (forall t, receives t (EvMessage sent) result.2
                 <-> subscribed t "general" Sample.world).
Proof.
  intros result sent.
  apply (chatMessage_delivery Sample.env "s2" (Sample.payload "general" "hey")
           Sample.world result.1 result.2 sent).
  - vm_compute; reflexivity.
  - eexists. vm_compute. right; left. reflexivity.
Defined.

(** X7. No request to a socket handler goes unanswered: the calling socket,
    when connected, receives an event from every [joinRoom] and every
    [chatMessage], and an error event goes to the caller alone. *)
Theorem handlers_always_answer env sid arg w sock :
  io_sockets w !! sid = Some sock ->
  (exists ev, receives sid ev (joinRoom env sid arg w).2)
  /\ (exists ev, receives sid ev (chatMessage env sid arg w).2)
  /\ (forall R e,
        In (Emit R (EvError e)) (joinRoom env sid arg w).2
        \/ In (Emit R (EvError e)) (chatMessage env sid arg w).2 ->
        R = {[sid]}).
Proof.
  intros Hsock.
  assert (forall ev tr, In (Emit {[sid]} ev) tr -> receives sid ev tr) as Hself.
  { intros ev tr Hin. exists {[sid]}. split; [done|]. by apply elem_of_singleton. }
  split; [|split].
  - destruct (joinRoom env sid arg w) as [w' tr] eqn:Hjoin.
    unfold joinRoom, emit_error in Hjoin. handler_cases Hjoin;
      eexists; apply Hself; simpl; eauto 6.
  - destruct (chatMessage env sid arg w) as [w' tr] eqn:Hsend.
    pose proof Hsend as Hsend'.
    unfold chatMessage, emit_error in Hsend. handler_cases Hsend;
      try (eexists; apply Hself; simpl; by eauto 6).
    match type of Hsend' with
    | _ = (_, [?s; Emit ?R (EvMessage ?p)]) =>
        assert (In (Emit R (EvMessage p)) [s; Emit R (EvMessage p)]) as Hin
          by (simpl; auto);
        exists (EvMessage p), R; split; [exact Hin|];
        exact (proj1 (publish_recipients _ _ _ _ _ _ _ _ Hsend' Hin))
    end.
  - intros R e [Hin|Hin].
    + destruct (joinRoom env sid arg w) as [w' tr] eqn:Hjoin.
      unfold joinRoom, emit_error in Hjoin. handler_cases Hjoin;
        trace_cases Hin; done.
    + destruct (chatMessage env sid arg w) as [w' tr] eqn:Hsend.
      unfold chatMessage, emit_error in Hsend. handler_cases Hsend;
        trace_cases Hin; done.
Qed.

Lemma handlers_always_answer_witness :
  exists ev, receives "s1" ev
               (chatMessage Sample.env "s1" (Js.Prim Js.Null) Sample.world).2.
Proof.
  refine (proj1 (proj2 (handlers_always_answer Sample.env "s1"
                          (Js.Prim Js.Null) Sample.world Sample.alice _))).
  vm_compute; reflexivity.
Defined.

(** ** Sending, then reading *)

Lemma sort_ts_desc_snoc_newest l m :
  (forall x, In x l -> (m_ts x < m_ts m)%Z) ->
  MessageModel.sort_ts_desc (l ++ [m]) = m :: MessageModel.sort_ts_desc l.
Proof.
  induction l as [|x l IH]; intros Hnew; simpl; [done|].
  rewrite IH by (intros y Hy; apply Hnew; by right). simpl.
  destruct (Z.leb_spec (m_ts m) (m_ts x)) as [Hle|]; [|done].
  specialize (Hnew x (or_introl eq_refl)). lia.
Qed.

(** After the append of a message newer than the messages of its room, every
    history read of that room from the newest message ends with it. *)
Lemma recent_after_append w w' m n :
  db_messages w' = db_messages w ++ [m] ->
  (forall x, In x (room_messages (m_room m) w) -> (m_ts x < m_ts m)%Z) ->
  0 < n ->
  last (recent (m_room m) n 0 w') = Some m.
Proof.
  intros Hdb Hnew Hn.
  unfold recent, MessageModel.find_sorted, MessageModel.limit.
  destruct n as [|n]; [lia|]. rewrite drop_0, Hdb, filter_app.
  replace (filter (fun x => m_room x = m_room m) [m]) with [m].
  - fold (room_messages (m_room m) w).
    rewrite sort_ts_desc_snoc_newest by done. simpl.
    by rewrite reverse_cons, last_snoc.
  - rewrite filter_cons. by destruct (decide (m_room m = m_room m)).
Qed.

(** X8. A message stored by a send is the last message of every later
    history read of its room, whatever the limit, when its timestamp is
    after those of the messages the room already had. *)
Theorem chatMessage_then_history env sid data w w' tr m n :
  chatMessage env sid data w = (w', tr) ->
  In (MessageSave m) tr ->
  (forall x, In x (room_messages (m_room m) w) -> (m_ts x < m_ts m)%Z) ->
  0 < n ->
  last (recent (m_room m) n 0 w') = Some m.
Proof.
  intros Hsend Hin Hnew Hn.
  destruct (chatMessage_saves_in_subscribed_room _ _ _ _ _ _ _ Hsend Hin)
    as [_ Hdb].
  by apply (recent_after_append w).
Qed.

Lemma chatMessage_then_history_witness :
  let sent := {| m_id := 7; m_room := "general"; m_username := "bob";
                 m_text := "hey"; m_ts := 1700000000500 |} in
  last (recent "general" 50 0
          (chatMessage Sample.env "s2" (Sample.payload "general" "hey")
                       Sample.world).1) = Some sent.
Proof.
  intros sent.
  apply (chatMessage_then_history Sample.env "s2"
           (Sample.payload "general" "hey") Sample.world _
           (chatMessage Sample.env "s2" (Sample.payload "general" "hey")
                        Sample.world).2 sent 50).
  - vm_compute; reflexivity.
  - vm_compute. left. reflexivity.
  - intros x Hx. vm_compute in Hx.
    destruct Hx as [<-|[<-|[]]]; vm_compute; reflexivity.
  - lia.
Defined.

(** ** Leaving a room *)

Lemma socket_leave_lookup sid r w :
  io_sockets (socket_leave sid r w) !! sid
  = (fun s => set_rooms (s_rooms s ∖ {[r]}) s) <$> io_sockets w !! sid.
Proof. unfold socket_leave; simpl. apply lookup_alter_eq. Qed.

Lemma socket_leave_lookup_ne sid sid' r w :
  sid <> sid' ->
  io_sockets (socket_leave sid r w) !! sid' = io_sockets w !! sid'.
Proof. intros. unfold socket_leave; simpl. by apply lookup_alter_ne. Qed.

(** X9. Leaving a room takes the socket out of that room, named by the
    trimmed argument, and out of no other; it touches no other socket and
    no collection, and leaving again changes nothing. *)
Theorem leaveRoom_exact sid r w sock :
  io_sockets w !! sid = Some sock ->
  r <> "" ->
  let w' := (leaveRoom sid (Js.Prim (Js.Str r)) w).1 in
  (forall r', subscribed sid r' w' <-> subscribed sid r' w /\ r' <> Js.trim r)
  /\ (forall sid', sid' <> sid -> io_sockets w' !! sid' = io_sockets w !! sid')
  /\ db_messages w' = db_messages w /\ db_rooms w' = db_rooms w
  /\ (leaveRoom sid (Js.Prim (Js.Str r)) w').1 = w'.
Proof.
  intros Hsock Hr w'.
  assert (w' = socket_leave sid (Js.trim r) w) as Hw'.
  { unfold w', leaveRoom. rewrite Hsock.
    by destruct (String.eqb_spec r ""). }
  rewrite Hw'. split; [|split; [|split; [|split]]]; try done.
  - intros r'. unfold subscribed. rewrite socket_leave_lookup, Hsock. simpl.
    split.
    + intros (s & [= <-] & Hin). simpl in Hin.
      apply elem_of_difference in Hin as [Hin Hne].
      split; [eauto|]. intros ->. apply Hne. by apply elem_of_singleton.
    + intros [(s & [= <-] & Hin) Hne]. eexists. split; [reflexivity|].
      simpl. apply elem_of_difference. split; [done|].
      by rewrite elem_of_singleton.
  - intros sid' Hne. by apply socket_leave_lookup_ne.
  - unfold leaveRoom. rewrite socket_leave_lookup, Hsock. simpl.
    destruct (String.eqb_spec r ""); [done|]. simpl.
    unfold socket_leave, set_sockets; simpl. f_equal.
    apply map_eq. intros i. destruct (decide (i = sid)) as [->|Hne].
    + rewrite !lookup_alter_eq, Hsock. simpl. unfold set_rooms; simpl.
      do 2 f_equal. apply set_eq. intros x.
      rewrite !elem_of_difference. tauto.
    + by rewrite !lookup_alter_ne.
Qed.

Lemma leaveRoom_exact_witness :
  let w' := (leaveRoom "s2" (Sample.str " general ") Sample.world).1 in
  (forall r', subscribed "s2" r' w'
              <-> subscribed "s2" r' Sample.world /\ r' <> "general")
  /\ (forall sid', sid' <> "s2" ->
                   io_sockets w' !! sid' = io_sockets Sample.world !! sid')
  /\ db_messages w' = db_messages Sample.world
  /\ db_rooms w' = db_rooms Sample.world
  /\ (leaveRoom "s2" (Sample.str " general ") w').1 = w'.
Proof.
  apply (leaveRoom_exact "s2" " general " Sample.world Sample.bob).
  - vm_compute; reflexivity.
  - discriminate.
Defined.

(** ** The client *)

Lemma joinRoom_world env sid room w :
  (joinRoom env sid room w).1 = w
  \/ exists r, r ∈ db_rooms w /\ (joinRoom env sid room w).1 = socket_join sid r w.
Proof.
  destruct (joinRoom env sid room w) as [w' tr] eqn:Hjoin.
  unfold joinRoom in Hjoin. handler_cases Hjoin; simpl; eauto.
Qed.

Lemma socket_join_subscribed sid r w t r' :
  subscribed t r' w -> subscribed t r' (socket_join sid r w).
Proof.
  intros (sock & Hs & Hin). destruct (decide (sid = t)) as [->|Hne].
  - eexists. rewrite socket_join_lookup, Hs. split; [reflexivity|].
    simpl. by apply elem_of_union_r.
  - exists sock. by rewrite socket_join_lookup_ne.
Qed.

Lemma joinRoom_subscribed env sid room w t r' :
  subscribed t r' w -> subscribed t r' (joinRoom env sid room w).1.
Proof.
  intros H. destruct (joinRoom_world env sid room w) as [->|(r & _ & ->)];
    [done|]. by apply socket_join_subscribed.
Qed.

Lemma leaveRoom_subscribed sid room w r' :
  subscribed sid r' w ->
  (forall r, room = Js.Prim (Js.Str r) -> r' <> Js.trim r) ->
  subscribed sid r' (leaveRoom sid room w).1.
Proof.
  intros (sock & Hs & Hin) Hne. unfold leaveRoom. rewrite Hs.
  destruct room as [[| | | |r]|]; try (by exists sock).
  destruct (String.eqb_spec r ""); [by exists sock|]. simpl.
  eexists. rewrite socket_leave_lookup, Hs. split; [reflexivity|].
  simpl. apply elem_of_difference. split; [done|].
  rewrite elem_of_singleton. by apply Hne.
Qed.

Section ClientFacts.

Variable jwt_decode : string -> option Jwt.

(** X10. The room change of the chat page leaves and joins the room it
    changes to. On the server the socket therefore stays in every other room
    it was in: the room shown before the change is not left. *)
Theorem roomChange_keeps_other_rooms env sid st w r' :
  subscribed sid r' w ->
  r' <> Js.trim (Client.currentRoom st) ->
  subscribed sid r'
    (run jwt_decode (Client.request env sid <$> Client.roomChangeEffect st) w).
Proof.
  intros Hsub Hne. unfold Client.roomChangeEffect.
  destruct (Client.has_socket st && Client.connected st
            && negb (String.eqb (Client.currentRoom st) "")); [|done].
  simpl. apply joinRoom_subscribed, leaveRoom_subscribed; [done|].
  by intros r [= <-].
Qed.

End ClientFacts.

Lemma roomChange_keeps_other_rooms_witness :
  let st := {| Client.has_socket := true; Client.connected := true;
               Client.currentRoom := "random" |} in
  let w' := run Sample.jwt_decode
                (Client.request Sample.env "s2" <$> Client.roomChangeEffect st)
                Sample.world in
  subscribed "s2" "general" w' /\ subscribed "s2" "random" w'.
Proof.
  intros st w'. split.
  - apply (roomChange_keeps_other_rooms Sample.jwt_decode Sample.env "s2" st
             Sample.world "general").
    + eexists; split; vm_compute; reflexivity.
    + discriminate.
  - eexists; split; vm_compute; reflexivity.
Defined.

(** X11. What the message input submits is the trimmed content of the input,
    and never blank. With the input bounded to 1000 characters, as its
    [maxLength] makes it, the server never answers a submitted text with one
    of its two text validation errors. *)
Theorem submit_passes_text_validation env sid st message w :
  String.length message <= 1000 ->
  forall room text,
    In (Client.EmitChatMessage room text) (Client.submit st message) ->
    text = Js.trim message /\ text <> ""
    /\ forall R e,
         In (Emit R (EvError e))
            (chatMessage env sid
               (Js.Object [("room", Js.Str room); ("text", Js.Str text)]) w).2 ->
         e <> MessageTextRequired /\ e <> MessageTooLong.
Proof.
  intros Hmax room text Hin.
  unfold Client.submit, Client.handleSubmit, Client.handleSendMessage in Hin.
  destruct (String.eqb_spec (Js.trim message) "") as [|Hblank];
    simpl in Hin; [done|].
  destruct (negb (negb (Client.connected st))); simpl in Hin; [|done].
  destruct (Client.has_socket st && Client.connected st
            && negb (String.eqb (Client.currentRoom st) ""));
    simpl in Hin; [|done].
  destruct Hin as [[= <- <-]|[]].
  split; [done|]. split; [done|]. intros R e Herr.
  destruct (chatMessage env sid _ w) as [w' tr] eqn:Hsend. simpl in Herr.
  unfold chatMessage, emit_error in Hsend. simpl in Hsend.
  rewrite trim_idemp in Hsend.
  destruct (Nat.eqb_spec (String.length (Js.trim message)) 0) as [Hzero|_].
  { destruct (Js.trim message); [done|discriminate Hzero]. }
  pose proof (trim_length message) as Hlen.
  destruct (Nat.ltb_spec 1000 (String.length (Js.trim message))); [lia|].
  handler_cases Hsend; trace_cases Herr; done.
Qed.

Lemma submit_passes_text_validation_witness :
  let st := {| Client.has_socket := true; Client.connected := true;
               Client.currentRoom := "general" |} in
  Client.submit st "  hello  " = [Client.EmitChatMessage "general" "hello"]
  /\ "hello" = Js.trim "  hello  ".
Proof.
  intros st. split; [vm_compute; reflexivity|].
  refine (proj1 (submit_passes_text_validation Sample.env "s2" st "  hello  "
                   Sample.world _ "general" "hello" _)).
  - vm_compute. lia.
  - vm_compute. left. reflexivity.
Defined.

(** X12. The label of a timestamp: [Just now] for everything younger than a
    minute, timestamps in the future included; whole minutes from 1 to 59;
    whole hours from 1 to 23; the date from 24 hours on. *)
Theorem formatTime_ranges now ts :
  match Client.formatTime now ts with
  | Client.JustNow => (now - ts < 60000)%Z
  | Client.MinutesAgo n =>
      (1 <= n <= 59 /\ 60000 * n <= now - ts < 60000 * (n + 1))%Z
  | Client.HoursAgo h =>
      (1 <= h <= 23 /\ 3600000 * h <= now - ts < 3600000 * (h + 1))%Z
  | Client.DateAndTime t => t = ts /\ (86400000 <= now - ts)%Z
  end.
Proof.
  unfold Client.formatTime.
  pose proof (Z.div_mod (now - ts) 60000 ltac:(lia)) as Hm.
  pose proof (Z.mod_pos_bound (now - ts) 60000 ltac:(lia)) as Hmb.
  set (minutes := ((now - ts) / 60000)%Z) in *.
  pose proof (Z.div_mod minutes 60 ltac:(lia)) as Hh.
  pose proof (Z.mod_pos_bound minutes 60 ltac:(lia)) as Hhb.
  destruct (Z.ltb_spec minutes 1); [lia|].
  destruct (Z.ltb_spec minutes 60); [lia|].
  destruct (Z.ltb_spec minutes 1440); [lia|].
  split; [done|lia].
Qed.

(** ** The REST routes *)

Section RestFacts.

Variable jwt_decode : string -> option Jwt.

(** The middleware ends a request with 401 or hands an error on; it answers
    nothing else. *)
Lemma authMiddleware_refusal aenv header w response :
  authMiddleware jwt_decode aenv header w = inl response ->
  response = NextError \/ exists message, response = Unauthorized message.
Proof.
  unfold authMiddleware. intros H. handler_cases H; eauto.
Qed.

(** A 201 of [POST /api/chat/messages] appended the message of the response,
    whose room is a trimmed name that is not empty. *)
Lemma post_message_created aenv env req w w' m :
  post_message jwt_decode aenv env req w = (w', Created m) ->
  db_messages w' = db_messages w ++ [m]
  /\ Js.trim (m_room m) = m_room m /\ m_room m <> "".
Proof.
  unfold post_message, post_validation, save. intros H.
  destruct (String.eqb_spec (Js.trim (default "" (body_room req))) "")
    as [|Hroom]; [simpl in H; by simplify_eq|].
  destruct (String.eqb_spec (Js.trim (default "" (body_text req))) "");
    [simpl in H; by simplify_eq|].
  destruct (Nat.ltb_spec 1000
              (String.length (Js.trim (default "" (body_text req)))));
    [simpl in H; by simplify_eq|].
  simpl in H.
  destruct (authMiddleware jwt_decode aenv (post_authorization req) w)
    as [refusal|user] eqn:Hauth.
  { simplify_eq.
    by destruct (authMiddleware_refusal _ _ _ _ Hauth) as [?|[? ?]]. }
  destruct (MessageModel.validate _ && negb (saveFails env));
    [|by simplify_eq].
  simplify_eq. simpl. by rewrite !trim_idemp.
Qed.

(** X13. [POST /api/chat/messages] changes the world only when it answers
    201, and then only by appending the message of the response: its room
    and text are the trimmed fields of the body, the room is not empty, the
    text has 1 to 1000 characters, the author is the authenticated user and
    the timestamp is the server's. *)
Theorem post_message_outcome aenv env req w w' response :
  post_message jwt_decode aenv env req w = (w', response) ->
  match response with
  | Created m =>
      w' = set_messages (db_messages w ++ [m]) w
      /\ m_room m = Js.trim (default "" (body_room req)) /\ m_room m <> ""
      /\ m_text m = Js.trim (default "" (body_text req))
      /\ 1 <= String.length (m_text m) <= 1000
      /\ m_ts m = now env
      /\ exists user,
           authMiddleware jwt_decode aenv (post_authorization req) w = inr user
           /\ m_username m = Js.trim (u_username user)
  | _ => w' = w
  end.
Proof.
  unfold post_message, post_validation, save. intros H.
  destruct (String.eqb_spec (Js.trim (default "" (body_room req))) "")
    as [|Hroom]; [simpl in H; by simplify_eq|].
  destruct (String.eqb_spec (Js.trim (default "" (body_text req))) "")
    as [|Htext]; [simpl in H; by simplify_eq|].
  destruct (Nat.ltb_spec 1000
              (String.length (Js.trim (default "" (body_text req)))));
    [simpl in H; by simplify_eq|].
  simpl in H.
  destruct (authMiddleware jwt_decode aenv (post_authorization req) w)
    as [refusal|user] eqn:Hauth.
  { simplify_eq.
    by destruct (authMiddleware_refusal _ _ _ _ Hauth) as [->|[? ->]]. }
  destruct (MessageModel.validate _ && negb (saveFails env));
    [|by simplify_eq].
  simplify_eq. simpl. rewrite !trim_idemp.
  repeat split; try done.
  - destruct (Js.trim (default "" (body_text req))); [done|simpl; lia].
  - eauto.
Qed.

(** X14. A message posted through the REST route, newer than the messages
    its room had, is the last message of the history the REST route then
    returns for that room. *)
Theorem post_then_get aenv env req w w' m aenv' env' header reader :
  post_message jwt_decode aenv env req w = (w', Created m) ->
  (forall x, In x (room_messages (m_room m) w) -> (m_ts x < m_ts m)%Z) ->
  authMiddleware jwt_decode aenv' header w' = inr reader ->
  messageQueryFails env' = false ->
  exists earlier,
    get_messages jwt_decode aenv' env'
      {| get_authorization := header; query_room := Some (m_room m);
         query_limit := None; query_skip := None |} w'
    = Ok (m_room m) (S (length earlier)) (earlier ++ [m]).
Proof.
  intros Hpost Hnew Hauth Hquery.
  apply post_message_created in Hpost as (Hw' & Htrim & Hnonempty).
  assert (last (recent (m_room m) 50 0 w') = Some m) as Hlast.
  { by apply (recent_after_append w); [| |lia]. }
  apply last_Some in Hlast as [earlier Hrecent].
  exists earlier. unfold get_messages, get_validation. simpl.
  rewrite Htrim. destruct (String.eqb_spec (m_room m) ""); [done|]. simpl.
  rewrite Hauth, Hquery, Htrim, Hrecent.
  by rewrite length_app, Nat.add_1_r.
Qed.

(** X15. A page of [GET /api/chat/messages] is a page of the room the
    request names, trimmed: it holds stored messages of that room only,
    oldest first, as many as its count says. The count is the limit of the
    request (50 when the request gives none, and never more than 100), or
    what the room has left after the offset of the request when that is
    less. *)
Theorem get_messages_page aenv env req w room count messages :
  get_messages jwt_decode aenv env req w = Ok room count messages ->
  room = Js.trim (default "" (query_room req))
  /\ count = length messages
  /\ (forall l, query_limit req = Some l -> (1 <= l <= 100)%Z)
  /\ (forall k, query_skip req = Some k -> (0 <= k)%Z)
  /\ count = Nat.min (Z.to_nat (default 50%Z (query_limit req)))
                     (length (room_messages room w)
                      - Z.to_nat (default 0%Z (query_skip req)))
  /\ (forall m, In m messages -> m_room m = room /\ In m (db_messages w))
  /\ Sorted Z.le (m_ts <$> messages).
Proof.
  unfold get_messages. intros H.
  destruct (get_validation req) as [|e errors] eqn:Hvalid; [|done].
  destruct (authMiddleware jwt_decode aenv (get_authorization req) w)
    as [refusal|user] eqn:Hauth.
  { by destruct (authMiddleware_refusal _ _ _ _ Hauth) as [->|[? ->]]. }
  destruct (messageQueryFails env); [done|].
  rewrite trim_idemp in H. injection H as <- <- <-.
  pose proof (effective_limit_validated req Hvalid) as Hlimit.
  unfold get_validation in Hvalid.
  apply app_eq_nil in Hvalid as [_ Hvalid].
  apply app_eq_nil in Hvalid as [Hl Hk].
  assert (Hlim : forall l, query_limit req = Some l -> (1 <= l <= 100)%Z).
  { intros l Hq. rewrite Hq in Hl.
    destruct (Z.leb_spec 1 l), (Z.leb_spec l 100); simpl in Hl;
      (done || lia). }
  assert (Hskip : forall k, query_skip req = Some k -> (0 <= k)%Z).
  { intros k Hq. rewrite Hq in Hk.
    by destruct (Z.leb_spec 0 k); simpl in Hk. }
  split; [done|]. split; [done|]. split; [exact Hlim|].
  split; [exact Hskip|]. split; [|split].
  - assert (effective_limit (query_limit req)
            = Z.to_nat (default 50%Z (query_limit req))) as Heff.
    { unfold effective_limit. destruct (query_limit req) as [l|]; [|done].
      specialize (Hlim l eq_refl). simpl.
      by destruct (Z.eqb_spec l 0); [lia|]. }
    assert (effective_skip (query_skip req)
            = Z.to_nat (default 0%Z (query_skip req))) as Heffk.
    { unfold effective_skip. by destruct (query_skip req). }
    rewrite <- Heff, <- Heffk.
    unfold recent, MessageModel.find_sorted, MessageModel.limit, room_messages.
    rewrite length_reverse.
    destruct (effective_limit (query_limit req)) as [|n] eqn:Hn; [lia|].
    rewrite length_take, length_drop.
    by rewrite (Permutation_length (sort_ts_desc_perm _)).
  - intros m Hm%recent_In%room_messages_In. tauto.
  - apply reverse_sorted_timestamps, find_sorted_sorted.
Qed.

(** X17. The two history routes agree: for a room id that is not blank,
    [GET /api/chat/messages/:roomId] answers what [GET /api/chat/messages]
    answers for the same room, limit and offset. *)
Theorem get_room_messages_agrees aenv env header roomId limit skip w :
  Js.trim roomId <> "" ->
  get_room_messages jwt_decode aenv env header roomId limit skip w
  = get_messages jwt_decode aenv env
      {| get_authorization := header; query_room := Some roomId;
         query_limit := limit; query_skip := skip |} w.
Proof.
  intros Hroom.
  unfold get_room_messages, get_messages, get_validation, page_validation.
  simpl. destruct (String.eqb_spec (Js.trim roomId) ""); [done|].
  simpl. by rewrite trim_idemp.
Qed.

End RestFacts.

Lemma post_then_get_witness :
  exists earlier,
    get_messages Sample.jwt_decode Sample.aenv Sample.env
      {| get_authorization := Some "Bearer token-alice";
         query_room := Some "general";
         query_limit := None; query_skip := None |}
      (post_message Sample.jwt_decode Sample.aenv Sample.env
         {| post_authorization := Some "Bearer token-alice";
            body_room := Some "general"; body_text := Some " hey " |}
         Sample.world).1
    = Ok "general" (S (length earlier))
         (earlier ++ [{| m_id := 7; m_room := "general";
                         m_username := "alice"; m_text := "hey";
                         m_ts := 1700000000500 |}]).
Proof.
  apply (post_then_get Sample.jwt_decode Sample.aenv Sample.env
           {| post_authorization := Some "Bearer token-alice";
              body_room := Some "general"; body_text := Some " hey " |}
           Sample.world _
           {| m_id := 7; m_room := "general"; m_username := "alice";
              m_text := "hey"; m_ts := 1700000000500 |}
           Sample.aenv Sample.env (Some "Bearer token-alice")
           (mkUser "alice")).
  - vm_compute; reflexivity.
  - intros x Hx. vm_compute in Hx.
    destruct Hx as [<-|[<-|[]]]; vm_compute; reflexivity.
  - vm_compute; reflexivity.
  - reflexivity.
Defined.

Lemma post_message_outcome_witness :
  exists user,
    authMiddleware Sample.jwt_decode Sample.aenv (Some "Bearer token-alice")
                   Sample.world = inr user
    /\ "alice" = Js.trim (u_username user).
Proof.
  refine (proj2 (proj2 (proj2 (proj2 (proj2 (proj2
           (post_message_outcome Sample.jwt_decode Sample.aenv Sample.env
              {| post_authorization := Some "Bearer token-alice";
                 body_room := Some "general"; body_text := Some " hey " |}
              Sample.world _
              (Created {| m_id := 7; m_room := "general";
                          m_username := "alice"; m_text := "hey";
                          m_ts := 1700000000500 |}) _))))))).
  vm_compute; reflexivity.
Defined.

Lemma get_messages_page_witness :
  "general" = Js.trim "general "
  /\ 1 = length [Sample.hi]
  /\ 1 = Nat.min (Z.to_nat 1)
                 (length (room_messages "general" Sample.world) - Z.to_nat 0)
  /\ (forall m, In m [Sample.hi] ->
                 m_room m = "general" /\ In m (db_messages Sample.world)).
Proof.
  destruct (get_messages_page Sample.jwt_decode Sample.aenv Sample.env
              {| get_authorization := Some "Bearer token-alice";
                 query_room := Some "general ";
                 query_limit := Some 1%Z; query_skip := None |}
              Sample.world "general" 1 [Sample.hi])
    as (Hroom & Hcount & _ & _ & Hmin & Hin & _).
  - vm_compute; reflexivity.
  - split; [exact Hroom|]. split; [exact Hcount|].
    split; [exact Hmin|exact Hin].
Defined.

Lemma get_room_messages_agrees_witness :
  get_room_messages Sample.jwt_decode Sample.aenv Sample.env
    (Some "Bearer token-alice") " general" (Some 1%Z) None Sample.world
  = Ok "general" 1 [Sample.hi].
Proof.
  rewrite (get_room_messages_agrees Sample.jwt_decode Sample.aenv Sample.env
             (Some "Bearer token-alice") " general" (Some 1%Z) None
             Sample.world).
  - vm_compute; reflexivity.
  - vm_compute. discriminate.
Defined.

(** X16. Pages tile the history: the page of [n] messages after the [k + n]
    newest, followed by the page of [n] messages after the [k] newest, is the
    page of [n + n] messages after the [k] newest. *)
Theorem recent_pages_tile room n k w :
  0 < n ->
  recent room n (k + n) w ++ recent room n k w = recent room (n + n) k w.
Proof.
  intros Hn. unfold recent, MessageModel.find_sorted, MessageModel.limit.
  destruct n as [|n]; [lia|]. simpl Nat.add.
  rewrite <- reverse_app. f_equal.
  by rewrite <- drop_drop, take_take_drop.
Qed.

Lemma recent_pages_tile_witness :
  recent "general" 1 (0 + 1) Sample.world ++ recent "general" 1 0 Sample.world
  = recent "general" (1 + 1) 0 Sample.world.
Proof. apply (recent_pages_tile "general" 1 0 Sample.world). lia. Defined.

(** ** The room list of [GET /api/chat/rooms] *)

Lemma group_add_In m gs g :
  NoDup (rs_name <$> gs) ->
  In g (Aggregate.group_add m gs) ->
  (In g gs /\ rs_name g <> m_room m)
  \/ (exists g0, In g0 gs /\ rs_name g0 = m_room m
                 /\ g = {| rs_name := rs_name g0;
                           rs_messageCount := S (rs_messageCount g0);
                           rs_lastMessage := Z.max (rs_lastMessage g0) (m_ts m) |})
  \/ (g = {| rs_name := m_room m; rs_messageCount := 1;
             rs_lastMessage := m_ts m |}
      /\ forall g0, In g0 gs -> rs_name g0 <> m_room m).
Proof.
  induction gs as [|g1 rest IH]; simpl; intros Hnd Hin.
  - destruct Hin as [<-|[]]. right; right. split; [done|]. by intros g0 [].
  - apply NoDup_cons in Hnd as [Hfresh Hnd].
    destruct (String.eqb_spec (rs_name g1) (m_room m)) as [Heq|Hne].
    + destruct Hin as [<-|Hin].
      * right; left. exists g1. auto.
      * left. split; [by right|]. intros Hname. apply Hfresh.
        rewrite Heq, <- Hname. apply list_elem_of_fmap_2.
        by apply list_elem_of_In.
    + destruct Hin as [<-|Hin]; [left; auto|].
      destruct (IH Hnd Hin) as [[? ?]|[(g0 & ? & ? & ?)|[? Hall]]].
      * left. auto.
      * right; left. exists g0. auto.
      * right; right. split; [done|]. intros g0 [<-|?]; auto.
Qed.

Lemma group_add_names m gs name :
  name ∈ rs_name <$> Aggregate.group_add m gs
  <-> name = m_room m \/ name ∈ rs_name <$> gs.
Proof.
  induction gs as [|g1 rest IH]; simpl.
  - rewrite list_elem_of_singleton. split; [auto|].
    intros [?|Hin]; [done|]. by apply elem_of_nil in Hin.
  - destruct (String.eqb_spec (rs_name g1) (m_room m)) as [Heq|Hne]; simpl.
    + rewrite !elem_of_cons. split; [auto|].
      intros [->|?]; [by left|done].
    + rewrite !elem_of_cons, IH. tauto.
Qed.

Lemma group_add_NoDup m gs :
  NoDup (rs_name <$> gs) -> NoDup (rs_name <$> Aggregate.group_add m gs).
Proof.
  induction gs as [|g1 rest IH]; simpl; intros Hnd.
  - apply NoDup_singleton.
  - apply NoDup_cons in Hnd as [Hfresh Hnd].
    destruct (String.eqb_spec (rs_name g1) (m_room m)) as [Heq|Hne]; simpl.
    + by apply NoDup_cons.
    + apply NoDup_cons. split; [|by apply IH].
      rewrite group_add_names. intros [?|?]; [congruence|done].
Qed.

Lemma filter_none {A} (P : A -> Prop) `{forall x, Decision (P x)} (l : list A) :
  (forall x, In x l -> ~ P x) -> filter P l = [].
Proof.
  induction l as [|a l IH]; intros Hall; [done|].
  rewrite filter_cons. destruct (decide (P a)) as [Ha|_].
  - destruct (Hall a (or_introl eq_refl) Ha).
  - apply IH. intros x Hx. apply Hall. by right.
Qed.

Lemma group_by_room_spec coll :
  NoDup (rs_name <$> Aggregate.group_by_room coll)
  /\ (forall g, In g (Aggregate.group_by_room coll) -> summarises coll g)
  /\ (forall m, In m coll ->
                m_room m ∈ rs_name <$> Aggregate.group_by_room coll).
Proof.
  induction coll as [|m coll (Hnd & Hsound & Hcomplete)]; simpl.
  - split; [constructor|]. split; [done|]. by intros m [].
  - split; [by apply group_add_NoDup|]. split.
    + intros g Hin.
      destruct (group_add_In m _ g Hnd Hin)
        as [[Hg Hne]|[(g0 & Hg0 & Hname & ->)|[-> Hnone]]].
      * destruct (Hsound g Hg) as (Hcount & Hpos & (x & Hx & Hxr & Hxt) & Hmax).
        unfold summarises. rewrite filter_cons.
        destruct (decide (m_room m = rs_name g)); [congruence|].
        split; [done|]. split; [done|]. split; [exists x; simpl; auto|].
        intros y [<-|Hy] Hyr; [congruence|auto].
      * destruct (Hsound g0 Hg0) as (Hcount & Hpos & (x & Hx & Hxr & Hxt) & Hmax).
        unfold summarises; simpl. rewrite filter_cons.
        destruct (decide (m_room m = rs_name g0)); [|congruence].
        simpl. split; [by rewrite Hcount|]. split; [lia|]. split.
        -- destruct (Z.max_spec (rs_lastMessage g0) (m_ts m)) as [[_ ->]|[_ ->]].
           ++ exists m. auto.
           ++ exists x. auto.
        -- intros y [<-|Hy] Hyr; [lia|]. specialize (Hmax y Hy Hyr). lia.
      * unfold summarises; simpl. rewrite filter_cons.
        destruct (decide (m_room m = m_room m)); [|done]. simpl.
        assert (forall x, In x coll -> m_room x <> m_room m) as Hfresh.
        { intros x Hx Heq. specialize (Hcomplete x Hx).
          apply list_elem_of_fmap in Hcomplete as (g0 & Hname & Hg0).
          apply (Hnone g0); [by apply list_elem_of_In|congruence]. }
        rewrite (filter_none _ coll) by exact Hfresh.
        split; [done|]. split; [lia|]. split; [exists m; auto|].
        intros y [<-|Hy] Hyr; [lia|]. by destruct (Hfresh y Hy).
    + intros x Hx. apply group_add_names.
      destruct Hx as [<-|Hx]; [by left|right; auto].
Qed.

Lemma summary_insert_perm s l : Aggregate.insert_desc s l ≡ₚ s :: l.
Proof.
  induction l as [|x l IH]; simpl; [done|].
  destruct (rs_lastMessage x <=? rs_lastMessage s)%Z; [done|].
  rewrite IH. apply Permutation_swap.
Qed.

Lemma sort_last_desc_perm l : Aggregate.sort_last_desc l ≡ₚ l.
Proof.
  induction l as [|x l IH]; simpl; [done|].
  by rewrite summary_insert_perm, IH.
Qed.

Lemma summary_insert_sorted s l :
  StronglySorted latest_first l ->
  StronglySorted latest_first (Aggregate.insert_desc s l).
Proof.
  induction 1 as [|x l Hl IH Hx]; simpl; [repeat constructor|].
  destruct (Z.leb_spec (rs_lastMessage x) (rs_lastMessage s)) as [Hle|Hlt].
  - constructor; [by constructor|].
    constructor; [exact Hle|].
    eapply Forall_impl; [exact Hx|]. unfold latest_first. intros y Hy. lia.
  - constructor; [exact IH|].
    rewrite summary_insert_perm. constructor; [|exact Hx].
    unfold latest_first. lia.
Qed.

Lemma sort_last_desc_sorted l :
  StronglySorted latest_first (Aggregate.sort_last_desc l).
Proof.
  induction l as [|x l IH]; simpl; [constructor|].
  by apply summary_insert_sorted.
Qed.

Section ChatRoomsFacts.

Variable jwt_decode : string -> option Jwt.

(** X18. [GET /api/chat/rooms] lists the rooms of the stored messages,
    whether or not a room document exists for them: every room name that
    occurs in a stored message is listed, once, with the number of its
    messages and the newest of their timestamps, and the list is ordered by
    that timestamp, newest first. *)
Theorem chat_rooms_summary aenv env header w count rooms :
  chat_rooms jwt_decode aenv env header w = ChatRooms count rooms ->
  count = length rooms
  /\ NoDup (rs_name <$> rooms)
  /\ (forall g, In g rooms -> summarises (db_messages w) g)
  /\ (forall m, In m (db_messages w) -> exists g, In g rooms /\ rs_name g = m_room m)
  /\ StronglySorted latest_first rooms.
Proof.
  unfold chat_rooms. intros H.
  destruct (authMiddleware jwt_decode aenv header w); [done|].
  destruct (messageQueryFails env); [done|].
  injection H as <- <-.
  destruct (group_by_room_spec (db_messages w)) as (Hnd & Hsound & Hcomplete).
  unfold Aggregate.rooms.
  split; [done|]. split; [|split; [|split]].
  - by rewrite sort_last_desc_perm.
  - intros g Hg. apply Hsound.
    rewrite <- list_elem_of_In in *. by rewrite sort_last_desc_perm in Hg.
  - intros m Hm. specialize (Hcomplete m Hm).
    apply list_elem_of_fmap in Hcomplete as (g & Hname & Hg).
    exists g. split; [|done].
    rewrite <- list_elem_of_In. by rewrite sort_last_desc_perm.
  - apply sort_last_desc_sorted.
Qed.

End ChatRoomsFacts.

Lemma chat_rooms_summary_witness :
  let rooms := [ {| rs_name := "random"; rs_messageCount := 1;
                    rs_lastMessage := 1700000000300 |};
                 {| rs_name := "general"; rs_messageCount := 2;
                    rs_lastMessage := 1700000000200 |} ] in
  2 = length rooms
  /\ NoDup (rs_name <$> rooms)
  /\ (forall g, In g rooms -> summarises (db_messages Sample.world) g)
  /\ (forall m, In m (db_messages Sample.world) ->
                exists g, In g rooms /\ rs_name g = m_room m)
  /\ StronglySorted latest_first rooms.
Proof.
  intros rooms.
  apply (chat_rooms_summary Sample.jwt_decode Sample.aenv Sample.env
           (Some "Bearer token-alice") Sample.world 2 rooms).
  vm_compute; reflexivity.
Defined.

(** ** Creating rooms *)

Lemma room_name_char_not_ws c : RoomModel.name_char c = true -> Js.is_ws c = false.
Proof.
  unfold RoomModel.name_char, Js.is_ws.
  generalize (nat_of_ascii c); intros n H.
  repeat match goal with
         | |- context [Nat.leb ?a ?b] => destruct (Nat.leb_spec a b)
         | |- context [Nat.eqb ?a ?b] => destruct (Nat.eqb_spec a b)
         | H : context [Nat.leb ?a ?b] |- _ => destruct (Nat.leb_spec a b)
         | H : context [Nat.eqb ?a ?b] |- _ => destruct (Nat.eqb_spec a b)
         end; simpl in *; try done; lia.
Qed.

Lemma trimEnd_room_name s : RoomModel.all_name_chars s = true -> Js.trimEnd s = s.
Proof.
  induction s as [|c s IH]; simpl; [done|].
  intros [Hc Hs]%andb_prop. rewrite (IH Hs).
  destruct s; [|done]. by rewrite (room_name_char_not_ws c Hc).
Qed.

(** A name of the room grammar is not empty and has no white space:
    trimming leaves it as it is and a join accepts it as a name. *)
Lemma valid_name_trimmed name :
  RoomModel.valid_name name = true ->
  Js.trim name = name /\ name <> ""
  /\ Js.nonblank_string_arg (Js.Prim (Js.Str name)) = Some name.
Proof.
  unfold RoomModel.valid_name.
  intros [[Hmin%Nat.leb_le _]%andb_prop Hchars]%andb_prop.
  assert (Js.trim name = name) as Htrim.
  { unfold Js.trim. rewrite trimStart_fixed.
    - by apply trimEnd_room_name.
    - destruct name as [|c s]; simpl in *; [done|].
      apply andb_prop in Hchars as [Hc _]. by apply room_name_char_not_ws. }
  split; [done|]. split.
  - intros ->. simpl in Hmin. lia.
  - simpl. rewrite Htrim. by destruct name; [simpl in Hmin; lia|].
Qed.

Section RoomsFacts.

Variable jwt_decode : string -> option Jwt.

(** X22. The validation chain of [POST /rooms] and the validators of the
    room schema agree: a body passes the chain exactly when its trimmed name
    is in the room grammar. *)
Theorem rooms_validation_grammar req :
  rooms_validation req = []
  <-> RoomModel.valid_name (Js.trim (default "" (body_name req))) = true.
Proof.
  unfold rooms_validation, RoomModel.valid_name.
  destruct (Js.trim (default "" (body_name req))) as [|c name].
  { simpl. split; discriminate. }
  replace (String.eqb (String c name) "") with false by done.
  replace (Nat.leb 1 (String.length (String c name))) with true by done.
  cbn [negb andb app].
  destruct (Nat.leb (String.length (String c name)) 50); [|done].
  by destruct (RoomModel.all_name_chars (String c name)).
Qed.

(** X19. [POST /rooms] changes the world only when it answers 201, and then
    only by adding the name of the response to the room collection: the
    trimmed name of the body, which is in the room grammar and was not a
    room before. *)
Theorem create_room_outcome aenv env req w w' response :
  create_room jwt_decode aenv env req w = (w', response) ->
  match response with
  | RoomCreated name createdAt =>
      name = Js.trim (default "" (body_name req))
      /\ RoomModel.valid_name name = true
      /\ (name ∉ db_rooms w)
      /\ w' = set_db_rooms ({[name]} ∪ db_rooms w) w
      /\ createdAt = now env
  | _ => w' = w
  end.
Proof.
  unfold create_room. intros H.
  destruct (rooms_validation req) eqn:Hvalid; [|by simplify_eq].
  destruct (authMiddleware jwt_decode aenv (room_authorization req) w);
    [by simplify_eq|].
  destruct (roomQueryFails env); [by simplify_eq|].
  rewrite !trim_idemp in H.
  destruct (decide (Js.trim (default "" (body_name req)) ∈ db_rooms w));
    [by simplify_eq|].
  destruct (RoomModel.valid_name _) eqn:Hname; simpl in H; [|by simplify_eq].
  destruct (saveFails env); simpl in H; by simplify_eq.
Qed.

(** X20. A room cannot be created twice: after a 201 the same request is
    answered 409 and changes nothing. *)
Theorem create_room_twice aenv env req w w' name createdAt :
  create_room jwt_decode aenv env req w = (w', RoomCreated name createdAt) ->
  create_room jwt_decode aenv env req w' = (w', RoomNameExists).
Proof.
  intros Hfirst.
  unfold create_room in Hfirst |- *.
  destruct (rooms_validation req); [|by simplify_eq].
  destruct (authMiddleware jwt_decode aenv (room_authorization req) w)
    as [|user] eqn:Hauth; [by simplify_eq|].
  destruct (roomQueryFails env); [by simplify_eq|].
  rewrite !trim_idemp in Hfirst |- *.
  destruct (decide (Js.trim (default "" (body_name req)) ∈ db_rooms w));
    [by simplify_eq|].
  destruct (RoomModel.valid_name _ && negb (saveFails env));
    [|by simplify_eq].
  simplify_eq.
  assert (authMiddleware jwt_decode aenv (room_authorization req)
            (set_db_rooms ({[Js.trim (default "" (body_name req))]} ∪ db_rooms w) w)
          = inr user) as ->.
  { exact Hauth. }
  destruct (decide _) as [|Hnot]; [done|].
  destruct Hnot. simpl. apply elem_of_union_l. by apply elem_of_singleton.
Qed.

(** X21. A room that has been created can be joined: with the database
    reachable, the join of the created name by a connected socket
    succeeds. *)
Theorem create_room_then_join aenv env req w w' name createdAt env' sid sock :
  create_room jwt_decode aenv env req w = (w', RoomCreated name createdAt) ->
  io_sockets w !! sid = Some sock ->
  readyState env' = 1 \/ reconnectFails env' = false ->
  roomQueryFails env' = None ->
  messageQueryFails env' = false ->
  join_succeeded sid name (joinRoom env' sid (Js.Prim (Js.Str name)) w').2
  /\ subscribed sid name (joinRoom env' sid (Js.Prim (Js.Str name)) w').1.
Proof.
  intros Hcreate Hsock Hdb Hquery Hhistory.
  pose proof Hcreate as Hcreate'.
  unfold create_room in Hcreate'.
  destruct (rooms_validation req); [|by simplify_eq].
  destruct (authMiddleware jwt_decode aenv (room_authorization req) w);
    [by simplify_eq|].
  destruct (roomQueryFails env); [by simplify_eq|].
  rewrite !trim_idemp in Hcreate'.
  destruct (decide (Js.trim (default "" (body_name req)) ∈ db_rooms w));
    [by simplify_eq|].
  destruct (RoomModel.valid_name _) eqn:Hname; simpl in Hcreate';
    [|by simplify_eq].
  destruct (saveFails env); simpl in Hcreate'; simplify_eq.
  set (name := Js.trim (default "" (body_name req))) in *.
  destruct (valid_name_trimmed name Hname) as (Htrim & _ & Hnonblank).
  unfold joinRoom. simpl io_sockets. rewrite Hsock, Hnonblank, Hquery, Hhistory.
  replace (negb (Nat.eqb (readyState env') 1) && reconnectFails env')
    with false
    by (destruct Hdb as [-> | ->]; [done|by rewrite andb_false_r]).
  rewrite Htrim.
  destruct (decide _) as [|Hnot].
  - split.
    + eexists. simpl. right; right; left. reflexivity.
    + simpl. eexists. rewrite socket_join_lookup. simpl. rewrite Hsock.
      split; [reflexivity|]. simpl. apply elem_of_union_l.
      by apply elem_of_singleton.
  - destruct Hnot. simpl. apply elem_of_union_l. by apply elem_of_singleton.
Qed.

End RoomsFacts.

Lemma create_room_outcome_witness :
  let name := "lounge" in
  name = Js.trim (default "" (Some " lounge "))
  /\ RoomModel.valid_name name = true
  /\ (name ∉ db_rooms Sample.world)
  /\ set_db_rooms ({[name]} ∪ db_rooms Sample.world) Sample.world
     = set_db_rooms ({[name]} ∪ db_rooms Sample.world) Sample.world
  /\ 1700000000500%Z = now Sample.env.
Proof.
  apply (create_room_outcome Sample.jwt_decode Sample.aenv Sample.env
           {| room_authorization := Some "Bearer token-alice";
              body_name := Some " lounge " |}
           Sample.world _ (RoomCreated "lounge" 1700000000500)).
  vm_compute; reflexivity.
Defined.

Lemma create_room_twice_witness :
  let request := {| room_authorization := Some "Bearer token-alice";
                    body_name := Some " lounge " |} in
  let w' := (create_room Sample.jwt_decode Sample.aenv Sample.env request
                         Sample.world).1 in
  create_room Sample.jwt_decode Sample.aenv Sample.env request w'
  = (w', RoomNameExists).
Proof.
  intros request w'.
  apply (create_room_twice Sample.jwt_decode Sample.aenv Sample.env request
           Sample.world w' "lounge" 1700000000500).
  vm_compute; reflexivity.
Defined.

Lemma create_room_then_join_witness :
  let request := {| room_authorization := Some "Bearer token-alice";
                    body_name := Some " lounge " |} in
  let w' := (create_room Sample.jwt_decode Sample.aenv Sample.env request
                         Sample.world).1 in
  join_succeeded "s1" "lounge" (joinRoom Sample.env "s1" (Sample.str "lounge") w').2
  /\ subscribed "s1" "lounge" (joinRoom Sample.env "s1" (Sample.str "lounge") w').1.
Proof.
  intros request w'.
  apply (create_room_then_join Sample.jwt_decode Sample.aenv Sample.env request
           Sample.world w' "lounge" 1700000000500 Sample.env "s1"
           Sample.alice).
  - vm_compute; reflexivity.
  - vm_compute; reflexivity.
  - left; reflexivity.
  - reflexivity.
  - reflexivity.
Defined.

(** ** Credentials *)

Lemma substring_from_app p token :
  Js.substring_from (String.length p) (p +:+ token) = token.
Proof. induction p as [|c p IH]; simpl; [by destruct token|done]. Qed.

Section CredentialFacts.

Variable jwt_decode : string -> option Jwt.

Lemma socket_auth_inr aenv hs w uid name :
  socket_auth jwt_decode aenv hs w = inr (uid, name) ->
  db_users w !! uid = Some (mkUser name).
Proof.
  unfold socket_auth, findById. intros H. handler_cases H.
  match goal with
  | Hfound : match jwt_userId _ with _ => _ end = Some (_, ?u) |- _ =>
      handler_cases Hfound; by destruct u
  end.
Qed.


(** X24. Where the socket middleware takes the credential from: a token in
    [handshake.auth] that is not empty is used whatever the header says;
    without one, the header is used from its eighth character on, whatever
    its first seven are. The REST middleware instead refuses every header
    that does not start with [Bearer ], with the 401 response that asks for
    the format [Bearer <token>]. *)
Theorem socket_credential_sources aenv w :
  (forall c token header,
      socket_auth jwt_decode aenv
        {| auth_token := Some (String c token); authorization := header |} w
      = socket_auth jwt_decode aenv
          {| auth_token := Some (String c token); authorization := None |} w)
  /\ (forall p token,
        String.length p = 7 ->
        socket_auth jwt_decode aenv
          {| auth_token := None; authorization := Some (p +:+ token) |} w
        = socket_auth jwt_decode aenv
            {| auth_token := Some token; authorization := None |} w)
  /\ (forall h,
        Js.startsWith "Bearer " h = false ->
        authMiddleware jwt_decode aenv (Some h) w
        = inl (Unauthorized
                 "No token provided. Authorization header must be in format: Bearer <token>")).
Proof.
  split; [done|]. split.
  - intros p token Hp. unfold socket_auth, handshake_token.
    cbn [auth_token authorization option_map].
    rewrite <- Hp, substring_from_app. by destruct token.
  - intros h Hh. unfold authMiddleware. by rewrite Hh.
Qed.

End CredentialFacts.


Lemma socket_credential_sources_witness :
  socket_auth Sample.jwt_decode Sample.aenv
    {| auth_token := None;
       authorization := Some ("Basic! " +:+ "token-alice") |}
    Sample.world
  = inr ("u1", "alice")
  /\ authMiddleware Sample.jwt_decode Sample.aenv
       (Some ("Basic! " +:+ "token-alice")) Sample.world
     = inl (Unauthorized
              "No token provided. Authorization header must be in format: Bearer <token>").
Proof.
  split.
  - rewrite (proj1 (proj2 (socket_credential_sources Sample.jwt_decode
                             Sample.aenv Sample.world))
               "Basic! " "token-alice").
    + vm_compute; reflexivity.
    + reflexivity.
  - apply (proj2 (proj2 (socket_credential_sources Sample.jwt_decode
                           Sample.aenv Sample.world))).
    vm_compute; reflexivity.
Defined.

(** ** What every request preserves *)

Lemma chatMessage_world env sid data w :
  (chatMessage env sid data w).1 = w
  \/ exists m, save env m w = Some (chatMessage env sid data w).1.
Proof.
  destruct (chatMessage env sid data w) as [w' tr] eqn:Hsend.
  unfold chatMessage in Hsend. handler_cases Hsend; simpl; eauto.
Qed.

Lemma leaveRoom_world sid room w :
  (leaveRoom sid room w).1 = w
  \/ exists r, (leaveRoom sid room w).1 = socket_leave sid r w.
Proof.
  destruct (leaveRoom sid room w) as [w' tr] eqn:Hleave.
  unfold leaveRoom in Hleave. handler_cases Hleave; simpl; eauto.
Qed.

Lemma save_world env m w w' :
  save env m w = Some w' ->
  w' = set_messages (db_messages w ++ [m]) w /\ MessageModel.validate m = true.
Proof.
  unfold save. destruct (MessageModel.validate m); simpl; [|done].
  destruct (saveFails env); simpl; [done|]. by intros [= <-].
Qed.

Lemma consistent_socket_join sid r w :
  r ∈ db_rooms w -> consistent w -> consistent (socket_join sid r w).
Proof.
  intros Hr [Hm Hrooms Hsub Hses]. split; simpl; try done.
  - intros t sock r'. destruct (decide (sid = t)) as [->|Hne].
    + rewrite lookup_alter_eq.
      destruct (io_sockets w !! t) as [s|] eqn:Hs; simpl; [|done].
      intros [= <-]. simpl. rewrite elem_of_union, elem_of_singleton.
      intros [->|Hin]; [by right|]. by apply (Hsub t s).
    + rewrite lookup_alter_ne by done. exact (Hsub t sock r').
  - intros t sock. destruct (decide (sid = t)) as [->|Hne].
    + rewrite lookup_alter_eq.
      destruct (io_sockets w !! t) as [s|] eqn:Hs; simpl; [|done].
      intros [= <-]. simpl. by apply (Hses t).
    + rewrite lookup_alter_ne by done. exact (Hses t sock).
Qed.

Lemma consistent_socket_leave sid r w :
  consistent w -> consistent (socket_leave sid r w).
Proof.
  intros [Hm Hrooms Hsub Hses]. split; simpl; try done.
  - intros t sock r'. destruct (decide (sid = t)) as [->|Hne].
    + rewrite lookup_alter_eq.
      destruct (io_sockets w !! t) as [s|] eqn:Hs; simpl; [|done].
      intros [= <-]. simpl. rewrite elem_of_difference.
      intros [Hin _]. by apply (Hsub t s).
    + rewrite lookup_alter_ne by done. exact (Hsub t sock r').
  - intros t sock. destruct (decide (sid = t)) as [->|Hne].
    + rewrite lookup_alter_eq.
      destruct (io_sockets w !! t) as [s|] eqn:Hs; simpl; [|done].
      intros [= <-]. simpl. by apply (Hses t).
    + rewrite lookup_alter_ne by done. exact (Hses t sock).
Qed.

Lemma consistent_append m w :
  MessageModel.validate m = true ->
  consistent w -> consistent (set_messages (db_messages w ++ [m]) w).
Proof.
  intros Hvalid [Hm Hrooms Hsub Hses]. split; simpl; try done.
  intros x [Hx|[<-|[]]]%in_app_or; auto.
Qed.

Lemma consistent_add_room name w :
  RoomModel.valid_name name = true ->
  consistent w -> consistent (set_db_rooms ({[name]} ∪ db_rooms w) w).
Proof.
  intros Hvalid [Hm Hrooms Hsub Hses]. split; simpl; try done.
  - intros r. rewrite elem_of_union, elem_of_singleton.
    intros [->|Hr]; auto.
  - intros t sock r Hs Hin. destruct (Hsub t sock r Hs Hin); [by left|].
    right. by apply elem_of_union_r.
Qed.

Lemma consistent_disconnect sid w :
  consistent w -> consistent (set_sockets (delete sid (io_sockets w)) w).
Proof.
  intros [Hm Hrooms Hsub Hses]. split; simpl; try done.
  - intros t sock r Hs. apply lookup_delete_Some in Hs as [_ Hs].
    exact (Hsub t sock r Hs).
  - intros t sock Hs. apply lookup_delete_Some in Hs as [_ Hs].
    exact (Hses t sock Hs).
Qed.

Lemma consistent_connect sid uid name w :
  db_users w !! uid = Some (mkUser name) ->
  consistent w ->
  consistent
    (set_sockets (<[sid := {| s_userId := uid; s_username := name;
                              s_rooms := {[sid]} |}]> (io_sockets w)) w).
Proof.
  intros Huser [Hm Hrooms Hsub Hses]. split; simpl; try done.
  - intros t sock r Hs. apply lookup_insert_Some in Hs as [[<- <-]|[_ Hs]].
    + simpl. rewrite elem_of_singleton. by left.
    + exact (Hsub t sock r Hs).
  - intros t sock Hs. apply lookup_insert_Some in Hs as [[<- <-]|[_ Hs]].
    + done.
    + exact (Hses t sock Hs).
Qed.

Section ServerFacts.

Variable jwt_decode : string -> option Jwt.

Lemma post_message_world aenv env req w :
  (post_message jwt_decode aenv env req w).1 = w
  \/ exists m, save env m w = Some (post_message jwt_decode aenv env req w).1.
Proof.
  destruct (post_message jwt_decode aenv env req w) as [w' response] eqn:Hpost.
  unfold post_message in Hpost. handler_cases Hpost; simpl; eauto.
Qed.

Lemma create_room_world aenv env req w :
  (create_room jwt_decode aenv env req w).1 = w
  \/ exists name,
       RoomModel.valid_name name = true
       /\ (create_room jwt_decode aenv env req w).1
          = set_db_rooms ({[name]} ∪ db_rooms w) w.
Proof.
  destruct (create_room jwt_decode aenv env req w) as [w' response] eqn:Hroom.
  unfold create_room in Hroom. handler_cases Hroom; simpl; eauto.
  right. eexists. split; [|reflexivity].
  match goal with
  | Hvalid : _ && _ = true |- _ => by apply andb_prop in Hvalid as [? _]
  end.
Qed.

Lemma handle_consistent r w :
  consistent w -> consistent (handle jwt_decode r w).
Proof.
  intros Hw. destruct r as [aenv sid hs|env sid room|env sid data|sid room|sid
                           |aenv env req|aenv env req]; simpl.
  - unfold connect.
    destruct (socket_auth jwt_decode aenv hs w) as [err|[uid name]] eqn:Hauth;
      [done|]. simpl.
    apply consistent_connect; [|done]. by eapply socket_auth_inr.
  - destruct (joinRoom_world env sid room w) as [->|(r & Hr & ->)]; [done|].
    by apply consistent_socket_join.
  - destruct (chatMessage_world env sid data w) as [->|(m & Hsave)]; [done|].
    apply save_world in Hsave as [-> Hvalid]. by apply consistent_append.
  - destruct (leaveRoom_world sid room w) as [->|(r & ->)]; [done|].
    by apply consistent_socket_leave.
  - by apply consistent_disconnect.
  - destruct (post_message_world aenv env req w) as [->|(m & Hsave)]; [done|].
    apply save_world in Hsave as [-> Hvalid]. by apply consistent_append.
  - destruct (create_room_world aenv env req w) as [->|(name & Hname & ->)];
      [done|].
    by apply consistent_add_room.
Qed.

(** X25. The server keeps its data consistent. Whatever requests it handles
    from a consistent world, in the world it reaches every stored message
    passes the validators of the message schema, every room name is in the
    room grammar, every room a socket is in is its private room or a stored
    room, and the identity of every socket is that of a stored user. *)
Theorem run_consistent rs w :
  consistent w -> consistent (run jwt_decode rs w).
Proof.
  revert w. induction rs as [|r rs IH]; intros w Hw; [done|].
  simpl. apply IH. by apply handle_consistent.
Qed.

Lemma handle_monotone r w :
  db_rooms w ⊆ db_rooms (handle jwt_decode r w)
  /\ db_messages w `prefix_of` db_messages (handle jwt_decode r w).
Proof.
  destruct r as [aenv sid hs|env sid room|env sid data|sid room|sid
                |aenv env req|aenv env req]; simpl.
  - unfold connect.
    by destruct (socket_auth jwt_decode aenv hs w) as [err|[uid name]].
  - by destruct (joinRoom_world env sid room w) as [->|(r & Hr & ->)].
  - destruct (chatMessage_world env sid data w) as [->|(m & Hsave)]; [done|].
    apply save_world in Hsave as [-> _]. simpl.
    split; [done|]. by apply prefix_app_r.
  - by destruct (leaveRoom_world sid room w) as [->|(r & ->)].
  - done.
  - destruct (post_message_world aenv env req w) as [->|(m & Hsave)]; [done|].
    apply save_world in Hsave as [-> _]. simpl.
    split; [done|]. by apply prefix_app_r.
  - destruct (create_room_world aenv env req w) as [->|(name & _ & ->)];
      [done|].
    simpl. split; [|done]. apply union_subseteq_r.
Qed.

(** X26. No socket event and no request of the message and room routes
    deletes or rewrites a stored room or message: after any sequence of
    them every room is still a room, and the message collection is the old
    one followed by the messages appended since. *)
Theorem run_monotone rs w :
  db_rooms w ⊆ db_rooms (run jwt_decode rs w)
  /\ db_messages w `prefix_of` db_messages (run jwt_decode rs w).
Proof.
  revert w. induction rs as [|r rs IH]; intros w; [done|].
  simpl. destruct (IH (handle jwt_decode r w)) as (Hr & Hm).
  destruct (handle_monotone r w) as (Hr' & Hm').
  split; by etransitivity.
Qed.

(** X28. The identity of a session does not change while it lasts: a request
    other than a new connection with the same socket id leaves the user id
    and the user name of every socket that is still connected as they
    were. *)
Theorem session_identity_fixed r w sid sock sock' :
  io_sockets w !! sid = Some sock ->
  io_sockets (handle jwt_decode r w) !! sid = Some sock' ->
  (forall aenv hs, r <> Connect aenv sid hs) ->
  s_userId sock' = s_userId sock /\ s_username sock' = s_username sock.
Proof.
  intros Hsock Hsock' Hnot.
  destruct r as [aenv t hs|env t room|env t data|t room|t
                |aenv env req|aenv env req]; simpl in Hsock'.
  - unfold connect in Hsock'.
    destruct (socket_auth jwt_decode aenv hs w) as [err|[uid name]];
      simpl in Hsock'; [by simplify_eq/=|].
    destruct (decide (t = sid)) as [->|Hne]; [by destruct (Hnot aenv hs)|].
    rewrite lookup_insert_ne in Hsock' by done. by simplify_eq/=.
  - destruct (joinRoom_world env t room w) as [Heq|(r & _ & Heq)];
      rewrite Heq in Hsock'; [by simplify_eq/=|].
    destruct (decide (t = sid)) as [->|Hne].
    + rewrite socket_join_lookup, Hsock in Hsock'. by simplify_eq/=.
    + rewrite socket_join_lookup_ne in Hsock' by done. by simplify_eq/=.
  - destruct (chatMessage_world env t data w) as [Heq|(m & Hsave)].
    + rewrite Heq in Hsock'. by simplify_eq/=.
    + rewrite (save_sockets _ _ _ _ Hsave) in Hsock'. by simplify_eq/=.
  - destruct (leaveRoom_world t room w) as [Heq|(r & Heq)];
      rewrite Heq in Hsock'; [by simplify_eq/=|].
    destruct (decide (t = sid)) as [->|Hne].
    + rewrite socket_leave_lookup, Hsock in Hsock'. by simplify_eq/=.
    + rewrite socket_leave_lookup_ne in Hsock' by done. by simplify_eq/=.
  - apply lookup_delete_Some in Hsock' as [_ Hsock']. by simplify_eq/=.
  - destruct (post_message_world aenv env req w) as [Heq|(m & Hsave)].
    + rewrite Heq in Hsock'. by simplify_eq/=.
    + rewrite (save_sockets _ _ _ _ Hsave) in Hsock'. by simplify_eq/=.
  - destruct (create_room_world aenv env req w) as [Heq|(name & _ & Heq)];
      rewrite Heq in Hsock'; by simplify_eq/=.
Qed.

End ServerFacts.

(** X27. On the socket path a message is stored only under the name of a
    stored room or of the private room of its sender, in every consistent
    world. *)
Theorem chatMessage_room_exists env sid data w w' tr m :
  consistent w ->
  chatMessage env sid data w = (w', tr) ->
  In (MessageSave m) tr ->
  m_room m ∈ db_rooms w \/ m_room m = sid.
Proof.
  intros Hw Hsend Hin.
  destruct (chatMessage_saves_in_subscribed_room _ _ _ _ _ _ _ Hsend Hin)
    as [(sock & Hsock & Hroom) _].
  destruct (subscriptions_exist w Hw sid sock (m_room m) Hsock Hroom); auto.
Qed.

Lemma sample_world_consistent : consistent Sample.world.
Proof.
  split.
  - intros m [<-|[<-|[<-|[]]]]; vm_compute; reflexivity.
  - intros r. unfold Sample.world; simpl.
    rewrite elem_of_union, !elem_of_singleton. intros [->| ->]; reflexivity.
  - intros sid sock r. unfold Sample.world; simpl.
    intros [[<- <-]|[_ [<- <-]%lookup_singleton_Some]]%lookup_insert_Some;
      simpl.
    + rewrite elem_of_singleton. by left.
    + rewrite elem_of_union, !elem_of_singleton. intros [->| ->]; [by left|].
      right. apply elem_of_union_l. by apply elem_of_singleton.
  - intros sid sock. unfold Sample.world; simpl.
    intros [[<- <-]|[_ [<- <-]%lookup_singleton_Some]]%lookup_insert_Some;
      vm_compute; reflexivity.
Qed.

Lemma run_consistent_witness :
  consistent
    (run Sample.jwt_decode
       [JoinRoom Sample.env "s1" (Sample.str "general");
        ChatMessage Sample.env "s1" (Sample.payload "general" "hi");
        PostRoom Sample.aenv Sample.env
          {| room_authorization := Some "Bearer token-alice";
             body_name := Some "lounge" |};
        Disconnect "s2"]
       Sample.world).
Proof.
  apply (run_consistent Sample.jwt_decode). exact sample_world_consistent.
Defined.

Lemma chatMessage_room_exists_witness :
  "general" ∈ db_rooms Sample.world \/ "general" = "s2".
Proof.
  apply (chatMessage_room_exists Sample.env "s2"
           (Sample.payload "general" "hey") Sample.world
           (chatMessage Sample.env "s2" (Sample.payload "general" "hey")
                        Sample.world).1
           (chatMessage Sample.env "s2" (Sample.payload "general" "hey")
                        Sample.world).2
           {| m_id := 7; m_room := "general"; m_username := "bob";
              m_text := "hey"; m_ts := 1700000000500 |}).
  - exact sample_world_consistent.
  - vm_compute; reflexivity.
  - vm_compute. left. reflexivity.
Defined.

Lemma session_identity_fixed_witness :
  s_userId (set_rooms ({["random"]} ∪ s_rooms Sample.bob) Sample.bob)
  = s_userId Sample.bob
  /\ s_username (set_rooms ({["random"]} ∪ s_rooms Sample.bob) Sample.bob)
     = s_username Sample.bob.
Proof.
  apply (session_identity_fixed Sample.jwt_decode
           (JoinRoom Sample.env "s2" (Sample.str "random")) Sample.world "s2").
  - vm_compute; reflexivity.
  - vm_compute; reflexivity.
  - intros aenv hs. discriminate.
Defined.
